(** * Copilot_frontend: the API client (src/services/api.js) and the
      conversation controller (src/App.jsx), embedded and verified.

    The program:
    - [JsString]: JavaScript strings as sequences of UTF-16 code units, with
      the built-ins the program calls ([trim], [includes], [startsWith]);
    - [Js]: the values a JSON body parses to, the abstract operations the
      program applies to them (ToBoolean, ToString, property reads) and
      completions (a value or a thrown error);
    - [Api]: the four functions of api.js, each as the request it sends and
      the way the outcome of that request settles its promise;
    - [App]: the React state of [App], its handlers, split at their [await],
      and the event loop that interleaves them with the pending requests.

    Then a concrete host with sample inputs ([Samples]), the predicates the
    statements are written with ([Spec]), and the properties:
    [JsStringFacts], [ApiFacts], [AppFacts], and the program run on concrete
    inputs ([Runs]); then more of the same ([Coverage], [CoverageRuns]): what
    each outcome of a request does to the state, and what holds on every
    run of the page. *)

From Stdlib Require Import List NArith ZArith Bool String Ascii Lia.
From Stdlib Require Import DecimalString.
Import ListNotations.

Set Implicit Arguments.
Set Warnings "-register-all".


(* ===================================================================== *)
(** * JavaScript strings *)
(* ===================================================================== *)

Module JsString.

(** A JavaScript string is a finite sequence of 16-bit code units. *)
Definition jsstring : Type := list N.

(** An ASCII literal of the source, as code units. *)
Fixpoint lit (s : string) : jsstring :=
  match s with
  | EmptyString => []
  | String a rest => N_of_ascii a :: lit rest
  end.

(** ECMAScript WhiteSpace and LineTerminator code points: what
    [String.prototype.trim] strips.  All of them are in the BMP, so one code
    unit each. *)
Definition is_white_space (c : N) : bool :=
  match c with
  | 0x0009 | 0x000A | 0x000B | 0x000C | 0x000D | 0x0020 | 0x00A0
  | 0x1680 | 0x2028 | 0x2029 | 0x202F | 0x205F | 0x3000 | 0xFEFF => true
  | _ => (0x2000 <=? c) && (c <=? 0x200A)
  end%N.

Fixpoint trimStart (s : jsstring) : jsstring :=
  match s with
  | [] => []
  | c :: rest => if is_white_space c then trimStart rest else s
  end.

Definition trimEnd (s : jsstring) : jsstring := rev (trimStart (rev s)).

(** [s.trim()] *)
Definition trim (s : jsstring) : jsstring := trimEnd (trimStart s).

(** [s.startsWith(prefix)] *)
Fixpoint startsWith (s prefix : jsstring) {struct prefix} : bool :=
  match prefix, s with
  | [], _ => true
  | p :: prefix', c :: s' => (c =? p)%N && startsWith s' prefix'
  | _ :: _, [] => false
  end.

(** [s.includes(sub)] *)
Fixpoint includes (s sub : jsstring) {struct s} : bool :=
  startsWith s sub
  || match s with
     | [] => false
     | _ :: s' => includes s' sub
     end.

(** [a === b] on strings: the same code units. *)
Fixpoint jsstring_eqb (a b : jsstring) : bool :=
  match a, b with
  | [], [] => true
  | x :: a', y :: b' => (x =? y)%N && jsstring_eqb a' b'
  | _, _ => false
  end.

(** [`${n}`] for a non-negative integer: its decimal digits. *)
Definition of_N (n : N) : jsstring := lit (NilZero.string_of_uint (N.to_uint n)).

Arguments lit : simpl never.
Arguments of_N : simpl never.

(** A string is whitespace-only when each of its code units is white space;
    the empty string is the case of no code unit. *)
Definition whitespace_only (s : jsstring) : Prop := Forall (fun c => is_white_space c = true) s.

(** [sub] occurs in [s]. *)
Definition occurs_in (sub s : jsstring) : Prop := exists pre post, s = pre ++ sub ++ post.

(** [s] begins with [prefix]. *)
Definition begins_with (prefix s : jsstring) : Prop := exists post, s = prefix ++ post.

End JsString.
Import JsString.

(* ===================================================================== *)
(** * Values, completions and the abstract operations *)
(* ===================================================================== *)

Module Js.

(** A thrown [Error] object: the program reads only its [message]. *)
Record exn : Type := mkExn { name : jsstring; message : jsstring }.

(** An expression either completes with a value or throws. *)
Inductive completion (A : Type) : Type :=
| Normal (a : A)
| Throw (e : exn).
Arguments Throw {A} e.

Definition bind {A B} (c : completion A) (k : A -> completion B) : completion B :=
  match c with
  | Normal a => k a
  | Throw e => Throw e
  end.

(** [try { c } catch (error) { h error }] *)
Definition try_catch {A} (c : completion A) (h : exn -> completion A) : completion A :=
  match c with
  | Normal a => Normal a
  | Throw e => h e
  end.

Definition throws {A} (c : completion A) : Prop := exists e, c = Throw e.
Definition returns {A} (c : completion A) : Prop := exists a, c = Normal a.

(** The TypeErrors the engine raises by itself in this program. *)
Inductive type_error : Type :=
| ReadOfNull (key : jsstring)          (* null.key *)
| ReadOfUndefined (key : jsstring)     (* undefined.key *)
| NotAFunction (key : jsstring)        (* x.key(...) where x.key is not callable *)
| NoPrimitiveValue.                    (* ToPrimitive finds no callable toString/valueOf *)

(** What the host leaves open: IEEE doubles with their ToBoolean and
    ToString, and the wording of the engine's own TypeErrors. *)
Class Host : Type := {
  num : Type;
  num_truthy : num -> bool;
  num_to_string : num -> jsstring;
  type_error_message : type_error -> jsstring
}.

Section Values.
Context {H : Host}.

(** What [response.json()] can resolve to, extended with [undefined], which
    reading an absent property gives.  The properties of an object are kept
    in order; a read takes the first with the key. *)
Inductive value : Type :=
| VUndefined
| VNull
| VBool (b : bool)
| VNum (n : num)
| VStr (s : jsstring)
| VArr (elems : list value)
| VObj (props : list (jsstring * value)).

Definition TypeError (t : type_error) : exn :=
  {| name := lit "TypeError"; message := type_error_message t |}.

(** [new Error(message)] for a string [message]. *)
Definition Error (msg : jsstring) : exn := {| name := lit "Error"; message := msg |}.


Fixpoint own_property (key : jsstring) (props : list (jsstring * value)) : option value :=
  match props with
  | [] => None
  | (k, v) :: rest => if jsstring_eqb k key then Some v else own_property key rest
  end.

(** [v.key], for the keys the program reads: none of them is defined by a
    prototype ([map], which is, goes through [optional_map] below), so on an
    object the result is the own property or [undefined], on any other
    non-nullish value [undefined], and on [null] and [undefined] a TypeError. *)
Definition get (v : value) (key : jsstring) : completion value :=
  match v with
  | VUndefined => Throw (TypeError (ReadOfUndefined key))
  | VNull => Throw (TypeError (ReadOfNull key))
  | VObj props =>
      match own_property key props with
      | Some x => Normal x
      | None => Normal VUndefined
      end
  | _ => Normal VUndefined
  end.

(** ToBoolean *)
Definition truthy (v : value) : bool :=
  match v with
  | VUndefined | VNull => false
  | VBool b => b
  | VNum n => num_truthy n
  | VStr s => match s with [] => false | _ => true end
  | VArr _ | VObj _ => true
  end.

(** [a || b], with [b] only evaluated when [a] is falsy. *)
Definition or_else (a b : value) : value := if truthy a then a else b.

(** ToString, as a template literal applies it.  An array joins its elements
    with commas, [null] and [undefined] elements as the empty string.  A
    JSON object has no callable own property: it prints through
    [Object.prototype.toString] unless an own [toString] shadows it, and then
    ToPrimitive fails. *)
Fixpoint to_string (v : value) : completion jsstring :=
  match v with
  | VUndefined => Normal (lit "undefined")
  | VNull => Normal (lit "null")
  | VBool true => Normal (lit "true")
  | VBool false => Normal (lit "false")
  | VNum n => Normal (num_to_string n)
  | VStr s => Normal s
  | VArr elems =>
      (fix join (first : bool) (l : list value) {struct l} : completion jsstring :=
         match l with
         | [] => Normal []
         | x :: rest =>
             bind (match x with
                   | VUndefined | VNull => Normal []
                   | _ => to_string x
                   end) (fun s =>
             bind (join false rest) (fun tail =>
             Normal ((if first then [] else lit ",") ++ s ++ tail)))
         end) true elems
  | VObj props =>
      match own_property (lit "toString") props with
      | Some _ => Throw (TypeError NoPrimitiveValue)
      | None => Normal (lit "[object Object]")
      end
  end.

(** [v === 'literal'] *)
Definition strict_eq_string (v : value) (s : jsstring) : bool :=
  match v with
  | VStr t => jsstring_eqb t s
  | _ => false
  end.

(** [xs?.map(f)]: [undefined] on a nullish [xs]; [Array.prototype.map] on an
    array, stopping at the first call that throws; on anything else [xs.map]
    is not callable. *)
Fixpoint map_completion (f : value -> completion value) (l : list value) : completion (list value) :=
  match l with
  | [] => Normal []
  | x :: rest =>
      bind (f x) (fun y => bind (map_completion f rest) (fun ys => Normal (y :: ys)))
  end.

Definition optional_map (xs : value) (f : value -> completion value) : completion value :=
  match xs with
  | VUndefined | VNull => Normal VUndefined
  | VArr elems => bind (map_completion f elems) (fun ys => Normal (VArr ys))
  | _ => Throw (TypeError (NotAFunction (lit "map")))
  end.

End Values.

Arguments value H : clear implicits.
Arguments value {H}.

End Js.
Import Js.

Declare Scope completion_scope.
Delimit Scope completion_scope with completion.
Notation "x <- c ;; k" := (Js.bind c (fun x => k))
  (at level 61, c at next level, right associativity) : completion_scope.

(* ===================================================================== *)
(** * src/services/api.js *)
(* ===================================================================== *)

Module Api.
Section Api.
Context {H : Host}.
Local Open Scope completion_scope.

Inductive http_method : Type := GET | POST.

(** The arguments of a [fetch] call.  [body] is the object handed to
    [JSON.stringify], before serialisation. *)
Record http_request : Type := {
  url : jsstring;
  method : http_method;
  headers : list (jsstring * jsstring);
  body : option value
}.

(** A [Response]: its status code and what [response.json()] settles to
    (the parsed body, or the rejection of a body that is not JSON). *)
Record Response : Type := { status : N; json : completion value }.

(** [response.ok] *)
Definition ok (response : Response) : bool :=
  ((200 <=? status response) && (status response <=? 299))%N.

(** What [await fetch(...)] gives: a response (of any status), or the
    rejection of a request that did not get one. *)
Definition fetched : Type := completion Response.

(** The promise an API function returns: the request it has sent, and how
    the outcome of that request settles the promise. *)
Record promise : Type := {
  request : http_request;
  settle : fetched -> completion value
}.

Definition API_BASE_URL : jsstring := lit "https://codebuddy-backend-2e8g.onrender.com/api".

Definition json_headers : list (jsstring * jsstring) :=
  [(lit "Content-Type", lit "application/json")].

Definition sendPrompt (prompt workingDirectory : jsstring) (verbose : bool) : promise :=
  {| request :=
       {| url := API_BASE_URL ++ lit "/chat";
          method := POST;
          headers := json_headers;
          body := Some (VObj [(lit "prompt", VStr prompt);
                              (lit "working_directory", VStr workingDirectory);
                              (lit "verbose", VBool verbose)]) |};
     settle := fun fetch_result =>
       try_catch
         (response <- fetch_result ;;
          data <- json response ;;
          if negb (ok response) then
            server_error <- get data (lit "error") ;;
            msg <- to_string
                     (or_else server_error
                        (VStr (lit "HTTP error! status: " ++ of_N (status response)))) ;;
            Throw (Error msg)
          else Normal data)
         (fun error => (* console.error('API Error:', error) *) Throw error) |}.

Definition validateDirectory (directory : jsstring) : promise :=
  {| request :=
       {| url := API_BASE_URL ++ lit "/validate-directory";
          method := POST;
          headers := json_headers;
          body := Some (VObj [(lit "directory", VStr directory)]) |};
     settle := fun fetch_result =>
       try_catch
         (response <- fetch_result ;; json response)
         (fun error =>
            Normal (VObj [(lit "valid", VBool false); (lit "error", VStr (message error))])) |}.

Definition validateRepository (repoUrl : jsstring) : promise :=
  {| request :=
       {| url := API_BASE_URL ++ lit "/validate-repo";
          method := POST;
          headers := json_headers;
          body := Some (VObj [(lit "repo_url", VStr repoUrl)]) |};
     settle := fun fetch_result =>
       try_catch
         (response <- fetch_result ;; json response)
         (fun error =>
            Normal (VObj [(lit "valid", VBool false); (lit "error", VStr (message error))])) |}.

Definition checkBackendHealth : promise :=
  {| request :=
       {| url := API_BASE_URL ++ lit "/health";
          method := GET;
          headers := [];
          body := None |};
     settle := fun fetch_result =>
       try_catch
         (response <- fetch_result ;;
          data <- json response ;;
          Normal (VObj [(lit "healthy", VBool (ok response)); (lit "data", data)]))
         (fun error =>
            Normal (VObj [(lit "healthy", VBool false); (lit "error", VStr (message error))])) |}.

(** The transport fails: the request is rejected, or answered with a status
    outside 200..299. *)
Definition transport_fails (r : fetched) : Prop :=
  match r with
  | Throw _ => True
  | Normal response => ok response = false
  end.

End Api.
End Api.
Import Api.

(* ===================================================================== *)
(** * src/App.jsx *)
(* ===================================================================== *)

Declare Scope action_scope.
Delimit Scope action_scope with action.

Module App.
Section App.
Context {H : Host}.

(** The [type] of a message: ['ai'], ['user'], ['error'] or ['system']. *)
Inductive message_type : Type := AI | USER | ERROR | SYSTEM.

(** An element of [messages].  The last four properties exist on the
    messages built from a chat response only. *)
Record Message : Type := {
  id : Z;
  type : message_type;
  content : value;
  timestamp : jsstring;
  functionCalls : option value;
  tokenCount : option value;
  iterations : option value;
  repositoryInfo : option value
}.

Definition plain_message (i : Z) (t : message_type) (text : jsstring) (time : jsstring) : Message :=
  {| id := i; type := t; content := VStr text; timestamp := time;
     functionCalls := None; tokenCount := None; iterations := None; repositoryInfo := None |}.

Record BackendStatus : Type := { healthy : value; checking : bool }.

(** The state variables of [App] ([useState]). *)
Record State : Type := {
  showCover : bool;
  messages : list Message;
  inputMessage : jsstring;
  verboseMode : bool;
  isTyping : bool;
  workingDirectory : jsstring;
  backendStatus : BackendStatus;
  error : option jsstring
}.

(** One reading of the clock: [Date.now()] and
    [new Date().toLocaleTimeString()]. *)
Record clock : Type := { Date_now : Z; toLocaleTimeString : jsstring }.

Definition greeting : jsstring :=
  lit "Hello! I'm your AI Coding Buddy. I can analyze your codebase, understand project structure, and help with development tasks. Just provide a local directory path or Git repository URL!".

Definition initial_state (clk : clock) : State :=
  {| showCover := true;
     messages := [plain_message 1 AI greeting (toLocaleTimeString clk)];
     inputMessage := [];
     verboseMode := false;
     isTyping := false;
     workingDirectory := lit "https://github.com/microsoft/calculator";
     backendStatus := {| healthy := VBool false; checking := true |};
     error := None |}.

(** ** The state setters *)

Definition setShowCover (b : bool) (st : State) : State :=
  {| showCover := b; messages := messages st; inputMessage := inputMessage st;
     verboseMode := verboseMode st; isTyping := isTyping st;
     workingDirectory := workingDirectory st; backendStatus := backendStatus st;
     error := error st |}.

(** [setMessages(prev => f prev)] *)
Definition setMessages (f : list Message -> list Message) (st : State) : State :=
  {| showCover := showCover st; messages := f (messages st); inputMessage := inputMessage st;
     verboseMode := verboseMode st; isTyping := isTyping st;
     workingDirectory := workingDirectory st; backendStatus := backendStatus st;
     error := error st |}.

Definition setInputMessage (s : jsstring) (st : State) : State :=
  {| showCover := showCover st; messages := messages st; inputMessage := s;
     verboseMode := verboseMode st; isTyping := isTyping st;
     workingDirectory := workingDirectory st; backendStatus := backendStatus st;
     error := error st |}.

Definition setVerboseMode (b : bool) (st : State) : State :=
  {| showCover := showCover st; messages := messages st; inputMessage := inputMessage st;
     verboseMode := b; isTyping := isTyping st;
     workingDirectory := workingDirectory st; backendStatus := backendStatus st;
     error := error st |}.

Definition setIsTyping (b : bool) (st : State) : State :=
  {| showCover := showCover st; messages := messages st; inputMessage := inputMessage st;
     verboseMode := verboseMode st; isTyping := b;
     workingDirectory := workingDirectory st; backendStatus := backendStatus st;
     error := error st |}.

Definition setWorkingDirectory (s : jsstring) (st : State) : State :=
  {| showCover := showCover st; messages := messages st; inputMessage := inputMessage st;
     verboseMode := verboseMode st; isTyping := isTyping st;
     workingDirectory := s; backendStatus := backendStatus st;
     error := error st |}.

Definition setBackendStatus (b : BackendStatus) (st : State) : State :=
  {| showCover := showCover st; messages := messages st; inputMessage := inputMessage st;
     verboseMode := verboseMode st; isTyping := isTyping st;
     workingDirectory := workingDirectory st; backendStatus := b;
     error := error st |}.

Definition setError (e : option jsstring) (st : State) : State :=
  {| showCover := showCover st; messages := messages st; inputMessage := inputMessage st;
     verboseMode := verboseMode st; isTyping := isTyping st;
     workingDirectory := workingDirectory st; backendStatus := backendStatus st;
     error := e |}.

(** ** Handler code: state updates and exceptions

    A piece of handler code runs on the current state and either completes
    or throws; the updates made before a throw stay. *)
Definition action (A : Type) : Type := State -> completion A * State.

Definition ret {A} (a : A) : action A := fun st => (Normal a, st).

Definition abind {A B} (c : action A) (k : A -> action B) : action B :=
  fun st =>
    match c st with
    | (Normal a, st') => k a st'
    | (Throw e, st') => (Throw e, st')
    end.

(** An expression that reads no state. *)
Definition eval {A} (c : completion A) : action A := fun st => (c, st).

(** A call of a state setter. *)
Definition update (f : State -> State) : action unit := fun st => (Normal tt, f st).

(** [try { body } catch (error) { handler error } finally { final }] *)
Definition try_catch_finally (body : action unit) (handler : exn -> action unit)
    (final : action unit) : action unit :=
  fun st =>
    let (caught, st1) :=
      match body st with
      | (Normal _, st') => (Normal tt, st')
      | (Throw e, st') => handler e st'
      end in
    match final st1 with
    | (Normal _, st2) => (caught, st2)
    | (Throw e, st2) => (Throw e, st2)
    end.

Notation "x <- c ;; k" := (abind c (fun x => k))
  (at level 61, c at next level, right associativity) : action_scope.
Notation "c ;; k" := (abind c (fun _ => k))
  (at level 61, right associativity) : action_scope.

(** The state a handler leaves.  Nothing awaits the promise of an event
    handler: when its code throws, the updates made so far are all that
    happens. *)
Definition exec (c : action unit) (st : State) : State := snd (c st).

(** A handler suspended at its [await]: the promise it waits for, and the
    rest of its code, which runs on the state current when the promise
    settles (the setters are the only access to state it has). *)
Record suspended : Type := {
  awaiting : promise;
  resume : completion value -> clock -> State -> State
}.

Definition is_empty (s : jsstring) : bool :=
  match s with
  | [] => true
  | _ :: _ => false
  end.

(** [`${x || d}`] for a literal [d] that prints as [default]. *)
Definition to_string_or (x : value) (default : jsstring) : completion jsstring :=
  if truthy x then to_string x else Normal default.

Local Open Scope action_scope.

(** ** [handleSendMessage] *)

(** The code after [await sendPrompt(...)]: the rest of the [try] block, its
    [catch] and its [finally]. *)
Definition handleSendMessage_continue (awaited : completion value) (clk : clock) : action unit :=
  try_catch_finally
    (response <- eval awaited ;;
     success <- eval (get response (lit "success")) ;;
     if truthy success then
       finalResponse <- eval (get response (lit "finalResponse")) ;;
       calls <- eval (get response (lit "functionCalls")) ;;
       names <- eval (optional_map calls (fun fc => get fc (lit "name"))) ;;
       tokenCounts <- eval (get response (lit "tokenCounts")) ;;
       totalIterations <- eval (get response (lit "totalIterations")) ;;
       repoInfo <- eval (get response (lit "repositoryInfo")) ;;
       let aiMessage :=
         {| id := Date_now clk + 1;
            type := AI;
            content := finalResponse;
            timestamp := toLocaleTimeString clk;
            functionCalls := Some (or_else names (VArr []));
            tokenCount := Some tokenCounts;
            iterations := Some totalIterations;
            repositoryInfo := Some repoInfo |} in
       update (setMessages (fun prev => prev ++ [aiMessage]))
     else
       server_error <- eval (get response (lit "error")) ;;
       text <- eval (to_string_or server_error (lit "Unknown error occurred")) ;;
       let errorMessage :=
         plain_message (Date_now clk + 1) ERROR (lit "Error: " ++ text)
           (toLocaleTimeString clk) in
       update (setMessages (fun prev => prev ++ [errorMessage])))
    (fun error =>
       (* console.error('API Error:', error) *)
       let errorMessage :=
         plain_message (Date_now clk + 1) ERROR
           (lit "Failed to process request: " ++ message error)
           (toLocaleTimeString clk) in
       update (setMessages (fun prev => prev ++ [errorMessage])) ;;
       update (setError (Some (message error))))
    (update (setIsTyping false)).

(** The handler up to its [await], on the state of the render it belongs
    to: the state it leaves and, past the guard, the suspended rest. *)
Definition handleSendMessage (clk : clock) (st : State) : State * option suspended :=
  (* e.preventDefault() *)
  if is_empty (trim (inputMessage st)) || isTyping st then (st, None)
  else
    let st1 := setError None st in
    let userMessage :=
      plain_message (Date_now clk) USER (inputMessage st) (toLocaleTimeString clk) in
    let st2 := setMessages (fun prev => prev ++ [userMessage]) st1 in
    let currentPrompt := inputMessage st in
    let st3 := setInputMessage [] st2 in
    let st4 := setIsTyping true st3 in
    (st4,
     Some {| awaiting := sendPrompt currentPrompt (workingDirectory st) (verboseMode st);
             resume := fun awaited clk' => exec (handleSendMessage_continue awaited clk') |}).

(** ** [handleDirectoryChange] *)

Definition white_check_mark : jsstring := [0x2705]%N.
Definition cross_mark : jsstring := [0x274C]%N.
Definition link_symbol : jsstring := [0xD83D; 0xDD17]%N.
Definition bar_chart : jsstring := [0xD83D; 0xDCCA]%N.
Definition memo : jsstring := [0xD83D; 0xDCDD]%N.
Definition file_folder : jsstring := [0xD83D; 0xDCC1]%N.
Definition newline : jsstring := [0x000A]%N.

Definition isGitUrl (newPath : jsstring) : bool :=
  includes newPath (lit "github.com") || includes newPath (lit "gitlab.com")
  || includes newPath (lit ".git") || startsWith newPath (lit "https://")
  || startsWith newPath (lit "http://").

(** The code after [await validateRepository(newPath)]. *)
Definition handleDirectoryChange_repository (newPath : jsstring)
    (awaited : completion value) (clk : clock) : action unit :=
  try_catch_finally
    (validation <- eval awaited ;;
     valid <- eval (get validation (lit "valid")) ;;
     if truthy valid then
       update (setWorkingDirectory newPath) ;;
       update (setError None) ;;
       branch <- eval (get validation (lit "branch")) ;;
       branch_text <- eval (to_string_or branch (lit "main")) ;;
       code_files <- eval (get validation (lit "code_files")) ;;
       code_files_text <- eval (to_string_or code_files (lit "0")) ;;
       total_files <- eval (get validation (lit "total_files")) ;;
       total_files_text <- eval (to_string_or total_files (lit "0")) ;;
       size_mb <- eval (get validation (lit "size_mb")) ;;
       size_mb_text <- eval (to_string_or size_mb (lit "0")) ;;
       last_commit <- eval (get validation (lit "last_commit")) ;;
       last_commit_text <- eval (to_string_or last_commit (lit "Unknown")) ;;
       let confirmMessage :=
         plain_message (Date_now clk) SYSTEM
           (white_check_mark ++ lit " Git repository connected: " ++ newPath
            ++ newline ++ link_symbol ++ lit " Branch: " ++ branch_text
            ++ newline ++ bar_chart ++ lit " " ++ code_files_text ++ lit " code files, "
            ++ total_files_text ++ lit " total files (" ++ size_mb_text ++ lit "MB)"
            ++ newline ++ memo ++ lit " Last commit: " ++ last_commit_text)
           (toLocaleTimeString clk) in
       update (setMessages (fun prev => prev ++ [confirmMessage]))
     else
       reason <- eval (get validation (lit "error")) ;;
       banner <- eval (to_string reason) ;;
       update (setError (Some (lit "Repository validation failed: " ++ banner))) ;;
       reason' <- eval (get validation (lit "error")) ;;
       text <- eval (to_string reason') ;;
       let errorMessage :=
         plain_message (Date_now clk) ERROR
           (cross_mark ++ lit " Git repository validation failed: " ++ text)
           (toLocaleTimeString clk) in
       update (setMessages (fun prev => prev ++ [errorMessage])))
    (fun error => update (setError (Some (lit "Failed to validate: " ++ message error))))
    (update (setIsTyping false)).

(** The code after [await validateDirectory(newPath)]. *)
Definition handleDirectoryChange_directory (newPath : jsstring)
    (awaited : completion value) (clk : clock) : action unit :=
  try_catch_finally
    (validation <- eval awaited ;;
     valid <- eval (get validation (lit "valid")) ;;
     if truthy valid then
       update (setWorkingDirectory newPath) ;;
       update (setError None) ;;
       kind <- eval (get validation (lit "type")) ;;
       text <-
         (if strict_eq_string kind (lit "git_repository") then
            code_files <- eval (get validation (lit "code_files")) ;;
            code_files_text <- eval (to_string_or code_files (lit "0")) ;;
            total_files <- eval (get validation (lit "total_files")) ;;
            total_files_text <- eval (to_string_or total_files (lit "0")) ;;
            ret (white_check_mark ++ lit " Git repository connected: " ++ newPath
                 ++ newline ++ bar_chart ++ lit " " ++ code_files_text ++ lit " code files, "
                 ++ total_files_text ++ lit " total files")
          else
            fileCount <- eval (get validation (lit "fileCount")) ;;
            fileCount_text <- eval (to_string fileCount) ;;
            dirCount <- eval (get validation (lit "dirCount")) ;;
            dirCount_text <- eval (to_string dirCount) ;;
            ret (white_check_mark ++ lit " Working directory changed to: " ++ newPath
                 ++ newline ++ file_folder ++ lit " " ++ fileCount_text ++ lit " files, "
                 ++ dirCount_text ++ lit " directories found")) ;;
       let confirmMessage := plain_message (Date_now clk) SYSTEM text (toLocaleTimeString clk) in
       update (setMessages (fun prev => prev ++ [confirmMessage]))
     else
       reason <- eval (get validation (lit "error")) ;;
       banner <- eval (to_string reason) ;;
       update (setError (Some (lit "Invalid directory: " ++ banner))) ;;
       reason' <- eval (get validation (lit "error")) ;;
       text <- eval (to_string reason') ;;
       let errorMessage :=
         plain_message (Date_now clk) ERROR
           (cross_mark ++ lit " Directory validation failed: " ++ text)
           (toLocaleTimeString clk) in
       update (setMessages (fun prev => prev ++ [errorMessage])))
    (fun error => update (setError (Some (lit "Failed to validate: " ++ message error))))
    (update (setIsTyping false)).

(** The handler up to its [await].  [answer] is what the [prompt] dialog
    returns: [None] for [null] (cancelled), else the text entered. *)
Definition handleDirectoryChange (answer : option jsstring) (st : State)
    : State * option suspended :=
  match answer with
  | None => (st, None)
  | Some [] => (st, None)
  | Some newPath =>
      let st1 := setIsTyping true st in
      if isGitUrl newPath then
        (st1,
         Some {| awaiting := validateRepository newPath;
                 resume := fun awaited clk =>
                   exec (handleDirectoryChange_repository newPath awaited clk) |})
      else
        (st1,
         Some {| awaiting := validateDirectory newPath;
                 resume := fun awaited clk =>
                   exec (handleDirectoryChange_directory newPath awaited clk) |})
  end.


(** ** [checkHealth], [handleSlideUp], [clearError] and the inline handlers *)

Definition backend_unavailable : jsstring :=
  lit "Backend is not available. Please start the Flask server.".

(** The code after [await checkBackendHealth()].  [checkHealth] has no
    [try]: were the awaited promise to reject, nothing would be updated. *)
Definition checkHealth_continue (awaited : completion value) : action unit :=
  health <- eval awaited ;;
  is_healthy <- eval (get health (lit "healthy")) ;;
  update (setBackendStatus {| healthy := is_healthy; checking := false |}) ;;
  if negb (truthy is_healthy) then update (setError (Some backend_unavailable))
  else ret tt.

Definition checkHealth (st : State) : State * option suspended :=
  (st,
   Some {| awaiting := checkBackendHealth;
           resume := fun awaited _ => exec (checkHealth_continue awaited) |}).

Definition handleSlideUp (st : State) : State := setShowCover false st.

Definition clearError (st : State) : State := setError None st.

(** [onChange={(e) => setInputMessage(e.target.value)}] *)
Definition onChange_input (text : jsstring) (st : State) : State := setInputMessage text st.

(** [onClick={() => setVerboseMode(!verboseMode)}] *)
Definition onClick_verbose (st : State) : State := setVerboseMode (negb (verboseMode st)) st.

(** ** What the rendered page lets through

    The [disabled] attributes and conditional renderings of the JSX: an
    element that is disabled or absent fires no handler. *)

(** [disabled={!inputMessage.trim() || isTyping || !backendStatus.healthy}]
    on the submit button, the only way to submit the form (the text field
    is disabled under [!backendStatus.healthy || isTyping]). *)
Definition submit_disabled (st : State) : bool :=
  is_empty (trim (inputMessage st)) || isTyping st || negb (truthy (healthy (backendStatus st))).

(** [disabled={!backendStatus.healthy || isTyping}] on the text field. *)
Definition input_disabled (st : State) : bool :=
  negb (truthy (healthy (backendStatus st))) || isTyping st.

(** [disabled={isTyping}] on the Change button. *)
Definition change_disabled (st : State) : bool := isTyping st.

(** [{error && (...)}]: the banner, with its dismiss button. *)
Definition banner_shown (st : State) : bool :=
  match error st with
  | Some (_ :: _) => true
  | _ => false
  end.

(** [{!showCover && (...)}]: the verbose toggle. *)
Definition verbose_toggle_shown (st : State) : bool := negb (showCover st).

(** A click on the Change button. *)
Definition click_change (answer : option jsstring) (st : State) : State * option suspended :=
  if change_disabled st then (st, None) else handleDirectoryChange answer st.

(** A submission of the form. *)
Definition submit_form (clk : clock) (st : State) : State * option suspended :=
  if submit_disabled st then (st, None) else handleSendMessage clk st.

(** ** The event loop *)

(** The mounted component: its state and the handlers suspended at an
    [await], oldest first. *)
Record System : Type := { ui : State; in_flight : list suspended }.

(** What can happen to the mounted component. *)
Inductive event : Type :=
| Submit (clk : clock)                        (* the form is submitted *)
| ClickChange (answer : option jsstring)      (* Change is clicked, the dialog answered *)
| ClickClearError                             (* the banner is dismissed *)
| ClickVerbose
| SlideUp
| Input (text : jsstring)                     (* the text field is edited *)
| Tick                                        (* the 30 s interval fires *)
| Settled (i : nat) (r : fetched) (clk : clock). (* the i-th pending request completes *)

(** A handler has run up to its [await]: its state updates are in, and its
    rest, if any, joins the suspended ones. *)
Definition launch (sys : System) (r : State * option suspended) : System :=
  {| ui := fst r;
     in_flight := in_flight sys ++ match snd r with Some s => [s] | None => [] end |}.

Fixpoint remove_nth {A} (i : nat) (l : list A) : list A :=
  match l, i with
  | [], _ => []
  | _ :: rest, O => rest
  | x :: rest, S i' => x :: remove_nth i' rest
  end.

(** One turn of the event loop.  A handler belongs to the latest render, so
    it reads the current state; an element that the render disabled or left
    out runs nothing; a settling request resumes its handler on the state
    current then. *)
Definition step (sys : System) (ev : event) : System :=
  match ev with
  | Submit clk => launch sys (submit_form clk (ui sys))
  | ClickChange answer => launch sys (click_change answer (ui sys))
  | ClickClearError =>
      if banner_shown (ui sys) then {| ui := clearError (ui sys); in_flight := in_flight sys |}
      else sys
  | ClickVerbose =>
      if verbose_toggle_shown (ui sys)
      then {| ui := onClick_verbose (ui sys); in_flight := in_flight sys |}
      else sys
  | SlideUp => {| ui := handleSlideUp (ui sys); in_flight := in_flight sys |}
  | Input text =>
      if input_disabled (ui sys) then sys
      else {| ui := onChange_input text (ui sys); in_flight := in_flight sys |}
  | Tick => launch sys (checkHealth (ui sys))
  | Settled i r clk =>
      match nth_error (in_flight sys) i with
      | Some s =>
          {| ui := resume s (settle (awaiting s) r) clk (ui sys);
             in_flight := remove_nth i (in_flight sys) |}
      | None => sys
      end
  end.

Definition run (sys : System) (evs : list event) : System := fold_left step evs sys.

(** The component as mounted: the effect has called [checkHealth] once. *)
Definition mount (clk : clock) : System :=
  launch {| ui := initial_state clk; in_flight := [] |} (checkHealth (initial_state clk)).

(** The requests sent and not yet answered. *)
Definition pending_requests (sys : System) : list http_request :=
  map (fun s => request (awaiting s)) (in_flight sys).

(** A handler run together with its request, nothing else in between: the
    state it leaves when the request comes out as [r] (read at [clk']). *)
Definition complete (r : fetched) (clk' : clock) (started : State * option suspended) : State :=
  match snd started with
  | Some s => resume s (settle (awaiting s) r) clk' (fst started)
  | None => fst started
  end.

(** ** What the header shows *)

(** [workingDirectory.includes('github.com') || workingDirectory.includes('gitlab.com')
    || workingDirectory.includes('.git')]: the header shows the Git icon and
    the label ['Git Repository:'], else the folder icon and
    ['Working Directory:']. *)
Definition shows_git_label (st : State) : bool :=
  includes (workingDirectory st) (lit "github.com")
  || includes (workingDirectory st) (lit "gitlab.com")
  || includes (workingDirectory st) (lit ".git").

End App.
End App.

(* ===================================================================== *)
(** * A concrete host *)
(* ===================================================================== *)

(** A host whose numbers are the integers, printed in decimal, and whose
    TypeErrors are worded as V8 words them.  The theorems below hold of every
    host; this one serves to run the program on concrete inputs. *)
Definition integer_host : Host :=
  {| num := Z;
     num_truthy := fun z => negb (z =? 0)%Z;
     num_to_string := fun z =>
       match z with
       | Z0 => lit "0"
       | Zpos p => of_N (Npos p)
       | Zneg p => lit "-" ++ of_N (Npos p)
       end;
     type_error_message := fun t =>
       match t with
       | ReadOfNull key =>
           lit "Cannot read properties of null (reading '" ++ key ++ lit "')"
       | ReadOfUndefined key =>
           lit "Cannot read properties of undefined (reading '" ++ key ++ lit "')"
       | NotAFunction key => key ++ lit " is not a function"
       | NoPrimitiveValue => lit "Cannot convert object to primitive value"
       end |}.

Module Samples.
Import App.
#[local] Existing Instance integer_host.

(** [fetch] rejects: the network is down. *)
Definition failed_to_fetch : exn :=
  {| name := lit "TypeError"; message := lit "Failed to fetch" |}.

Definition network_down : @fetched integer_host := Throw failed_to_fetch.

(** A 500 answer with a JSON body [{"error": "boom"}]. *)
Definition server_error : @fetched integer_host :=
  Normal {| status := 500; json := Normal (VObj [(lit "error", VStr (lit "boom"))]) |}.

Definition noon : App.clock := {| App.Date_now := 1700000000000; App.toLocaleTimeString := lit "12:00:00 PM" |}.
Definition later : App.clock := {| App.Date_now := 1700000002500; App.toLocaleTimeString := lit "12:00:02 PM" |}.

(** Just mounted, the health check not yet answered. *)
Definition fresh : State := initial_state noon.

(** The user has typed a prompt. *)
Definition typed : State := setInputMessage (lit "list the files") fresh.

(** The user has typed spaces and a tab. *)
Definition blank : State := setInputMessage ([0x20; 0x20; 0x09]%N) fresh.

(** A prompt has been submitted and is not answered yet. *)
Definition busy : State := fst (handleSendMessage noon typed).

(** A 200 answer of the chat endpoint. *)
Definition chat_success : value :=
  VObj [(lit "success", VBool true);
        (lit "finalResponse", VStr (lit "There are 3 files."));
        (lit "functionCalls",
         VArr [VObj [(lit "name", VStr (lit "get_files_info")); (lit "args", VObj [])]]);
        (lit "tokenCounts",
         VObj [(lit "prompt_tokens", VNum 120%Z); (lit "response_tokens", VNum 15%Z)]);
        (lit "totalIterations", VNum 2%Z);
        (lit "repositoryInfo", VNull)].

Definition answered (body : value) : fetched :=
  Normal {| status := 200; json := Normal body |}.

Definition health_ok : fetched :=
  answered (VObj [(lit "status", VStr (lit "healthy"))]).

(** The backend answers the first health check, the user leaves the cover
    page, types a prompt and submits it twice in a row; then the answer
    arrives. *)
Definition session : list event :=
  [Settled 0 health_ok noon; SlideUp; Input (lit "list the files");
   Submit noon; Submit noon].

(** What [handleSendMessage] leaves suspended on [typed], and
    [handleDirectoryChange] on [fresh] when the dialog is answered with a
    local path. *)
Definition chat_underway : suspended :=
  {| awaiting := sendPrompt (lit "list the files") (workingDirectory typed) (verboseMode typed);
     resume := fun awaited clk' => exec (handleSendMessage_continue awaited clk') |}.

Definition validation_underway : suspended :=
  {| awaiting := validateDirectory (lit "/home/user/project");
     resume := fun awaited clk' =>
       exec (handleDirectoryChange_directory (lit "/home/user/project") awaited clk') |}.

(** A 500 answer of the chat endpoint that names its error, and a 503 answer
    that does not. *)
Definition error_500 : Response :=
  {| status := 500; json := Normal (VObj [(lit "error", VStr (lit "boom"))]) |}.

Definition error_503 : Response :=
  {| status := 503; json := Normal (VObj []) |}.

(** Answers of the two validation endpoints. *)
Definition rejected_bare : value := VObj [(lit "valid", VBool false)].

Definition repository_accepted : value :=
  VObj [(lit "valid", VBool true); (lit "branch", VStr (lit "dev")); (lit "code_files", VNum 7%Z)].

Definition directory_accepted : value :=
  VObj [(lit "valid", VBool true); (lit "fileCount", VNum 12%Z); (lit "dirCount", VNum 3%Z)].

Definition checkout_accepted : value :=
  VObj [(lit "valid", VBool true); (lit "type", VStr (lit "git_repository"));
        (lit "code_files", VNum 7%Z)].

(** A value-level failure that gives no reason. *)
Definition failure_bare : value := VObj [(lit "success", VBool false)].

(** The backend has answered the health check; the user has typed a prompt. *)
Definition ready : System :=
  run (mount noon) [Settled 0 health_ok noon; SlideUp; Input (lit "list the files")].

End Samples.

(* ===================================================================== *)
(** * The vocabulary of the statements *)
(* ===================================================================== *)

Module Spec.
Import App.
Section Spec.
Context {H : Host}.

(** What the two validation functions return when something was thrown. *)
Definition invalid (e : exn) : value :=
  VObj [(lit "valid", VBool false); (lit "error", VStr (message e))].

(** [new] is [old] with messages added at its end. *)
Definition extends (old new : list Message) : Prop := exists appended, new = old ++ appended.

(** A state update that keeps the history or adds to its end. *)
Definition appends (f : State -> State) : Prop :=
  forall st, extends (messages st) (messages (f st)).

(** Handler code that, completing or throwing, keeps the history or adds to
    its end. *)
Definition append_only {A} (c : action A) : Prop :=
  forall st, extends (messages st) (messages (snd (c st))).

(** A suspended handler whose rest, however its request settles, keeps the
    history or adds to its end. *)
Definition sound (s : suspended) : Prop :=
  forall awaited clk, appends (resume s awaited clk).

(** A handler that, up to its [await], keeps the history or adds to its end,
    and whose suspended rest does so too. *)
Definition sound_start (start : State -> State * option suspended) : Prop :=
  forall st,
    extends (messages st) (messages (fst (start st)))
    /\ match snd (start st) with
       | Some s => sound s
       | None => True
       end.

(** The invariant of the event loop: what is suspended only appends. *)
Definition well_formed (sys : System) : Prop := Forall sound (in_flight sys).

(** The requests a handler sends before it suspends. *)
Definition dispatched (started : State * option suspended) : option http_request :=
  option_map (fun s => request (awaiting s)) (snd started).

(** The promise a handler is suspended on. *)
Definition called (started : State * option suspended) : option promise :=
  option_map awaiting (snd started).

(** The classification in the words of the specification. *)
Definition git_reference (newValue : jsstring) : Prop :=
  occurs_in (lit "github.com") newValue
  \/ occurs_in (lit "gitlab.com") newValue
  \/ occurs_in (lit ".git") newValue
  \/ begins_with (lit "https://") newValue
  \/ begins_with (lit "http://") newValue.

(** [v.key] where the read cannot throw. *)
Definition property (v : value) (key : jsstring) : value :=
  match get v key with
  | Normal x => x
  | Throw _ => VUndefined
  end.

(** [calls] is absent, or a list of entries each of which has properties to
    read. *)
Definition calls_listed (calls : value) : Prop :=
  match calls with
  | VUndefined | VNull => True
  | VArr entries => Forall (fun fc => fc <> VNull /\ fc <> VUndefined) entries
  | _ => False
  end.

(** A success result of [sendPrompt]: an object with a truthy [success]
    whose [functionCalls], if any, is a list of entries. *)
Definition success_result (response : value) : Prop :=
  (exists props, response = VObj props)
  /\ truthy (property response (lit "success")) = true
  /\ calls_listed (property response (lit "functionCalls")).

(** The names of the tools called, as the assistant message lists them. *)
Definition function_names (calls : value) : value :=
  match calls with
  | VArr entries => VArr (map (fun fc => property fc (lit "name")) entries)
  | _ => VArr []
  end.

(** The user message [handleSendMessage] appends. *)
Definition userMessage_of (clk : clock) (st : State) : Message :=
  plain_message (Date_now clk) USER (inputMessage st) (toLocaleTimeString clk).

(** The value-level failure [{success: false, error: e}]. *)
Definition failure_result (e : jsstring) : value :=
  VObj [(lit "success", VBool false); (lit "error", VStr e)].

(** The suspended handler is a health check: its request went to [/health]. *)
Definition is_health_check (s : suspended) : bool :=
  jsstring_eqb (url (request (awaiting s))) (API_BASE_URL ++ lit "/health").

(** The requests in flight that the user started (a prompt, a change of
    target). *)
Definition user_requests (sys : System) : list suspended :=
  filter (fun s => negb (is_health_check s)) (in_flight sys).

(** A health check leaves [isTyping] as it finds it; the rest of a user
    request clears it. *)
Definition governs_flag (s : suspended) : Prop :=
  forall awaited clk st,
    isTyping (resume s awaited clk st) = if is_health_check s then isTyping st else false.

(** The pending flag counts the user requests in flight. *)
Definition flag_counts (sys : System) : Prop :=
  List.length (user_requests sys) = if isTyping (ui sys) then 1 else 0.

(** A handler that starts a user request from an idle state and sets the
    flag, or starts nothing and leaves the flag. *)
Definition starts_one (st : State) (started : State * option suspended) : Prop :=
  match snd started with
  | Some s =>
      isTyping st = false /\ isTyping (fst started) = true
      /\ is_health_check s = false /\ governs_flag s
  | None => isTyping (fst started) = isTyping st
  end.

(** The invariant: each suspended handler treats the flag as its kind does,
    and the flag is set exactly while one user request is in flight. *)
Definition single_flight_invariant (sys : System) : Prop :=
  Forall governs_flag (in_flight sys) /\ flag_counts sys.

(** ** More vocabulary *)

(** The body of an answer that came with a 2xx status and parsed as JSON. *)
Definition json_ok (r : fetched) : option value :=
  match r with
  | Normal response =>
      if ok response then
        match json response with
        | Normal data => Some data
        | Throw _ => None
        end
      else None
  | Throw _ => None
  end.

(** The health endpoint answered with a JSON body and a 2xx status. *)
Definition health_answer (r : fetched) : bool :=
  match r with
  | Normal response =>
      match json response with
      | Normal _ => ok response
      | Throw _ => false
      end
  | Throw _ => false
  end.

(** Neither [null] nor [undefined]: a value whose properties can be read. *)
Definition readable (v : value) : Prop := v <> VNull /\ v <> VUndefined.

(** The message [sendPrompt] makes from a status. *)
Definition status_message (response : Response) : jsstring :=
  lit "HTTP error! status: " ++ of_N (status response).

(** The ['error'] message the [catch] of [handleSendMessage] appends. *)
Definition failed_request_message (clk : clock) (msg : jsstring) : Message :=
  plain_message (Date_now clk + 1) ERROR (lit "Failed to process request: " ++ msg)
    (toLocaleTimeString clk).

(** Handler code that, completing or throwing, leaves a state variable (or
    any other reading [proj] of the state) as it found it. *)
Definition unchanged {B A : Type} (proj : State -> B) (c : action A) : Prop :=
  forall st, proj (snd (c st)) = proj st.

(** The validation came back and its [valid] is truthy. *)
Definition validated (awaited : completion value) : bool :=
  match awaited with
  | Normal validation =>
      match get validation (lit "valid") with
      | Normal valid => truthy valid
      | Throw _ => false
      end
  | Throw _ => false
  end.

(** What [await fetch(...)] or [await response.json()] throws, if either
    does. *)
Definition thrown_by (r : fetched) : option exn :=
  match r with
  | Throw e => Some e
  | Normal response =>
      match json response with
      | Throw e => Some e
      | Normal _ => None
      end
  end.

(** [`${v || d}`] prints as [text]: as [v] when [v] is truthy, else as the
    default. *)
Definition shown_or (v : value) (default text : jsstring) : Prop :=
  (truthy v = true /\ to_string v = Normal text) \/ (truthy v = false /\ text = default).

(** A message as the handlers make them: without [functionCalls], or with a
    list of them. *)
Definition renderable (m : Message) : Prop :=
  functionCalls m = None \/ exists names, functionCalls m = Some (VArr names).

(** The body of an answer that parsed as JSON, whatever its status. *)
Definition parsed (r : fetched) : option value :=
  match r with
  | Normal response =>
      match json response with
      | Normal data => Some data
      | Throw _ => None
      end
  | Throw _ => None
  end.

(** The ['error'] message for a validation that did not pass. *)
Definition validation_failed_message (newPath : jsstring) (clk : clock) (text : jsstring)
    : Message :=
  plain_message (Date_now clk) ERROR
    (cross_mark
     ++ (if isGitUrl newPath then lit " Git repository validation failed: "
         else lit " Directory validation failed: ")
     ++ text)
    (toLocaleTimeString clk).

(** The banner for a validation that did not pass. *)
Definition validation_failed_banner (newPath text : jsstring) : jsstring :=
  (if isGitUrl newPath then lit "Repository validation failed: " else lit "Invalid directory: ")
  ++ text.

(** The three confirmation texts. *)
Definition repository_connected_text (newPath branch code total size commit : jsstring)
    : jsstring :=
  white_check_mark ++ lit " Git repository connected: " ++ newPath
  ++ newline ++ link_symbol ++ lit " Branch: " ++ branch
  ++ newline ++ bar_chart ++ lit " " ++ code ++ lit " code files, "
  ++ total ++ lit " total files (" ++ size ++ lit "MB)"
  ++ newline ++ memo ++ lit " Last commit: " ++ commit.

Definition local_repository_text (newPath code total : jsstring) : jsstring :=
  white_check_mark ++ lit " Git repository connected: " ++ newPath
  ++ newline ++ bar_chart ++ lit " " ++ code ++ lit " code files, "
  ++ total ++ lit " total files".

Definition directory_changed_text (newPath files dirs : jsstring) : jsstring :=
  white_check_mark ++ lit " Working directory changed to: " ++ newPath
  ++ newline ++ file_folder ++ lit " " ++ files ++ lit " files, "
  ++ dirs ++ lit " directories found".

(** The state a confirmed change of target leaves. *)
Definition confirmed (newPath text : jsstring) (clk : clock) (st : State) : State :=
  setIsTyping false
    (setMessages
       (fun prev => prev ++ [plain_message (Date_now clk) SYSTEM text (toLocaleTimeString clk)])
       (setError None (setWorkingDirectory newPath st))).

(** The ['error'] message for a value-level failure. *)
Definition failure_message (clk : clock) (text : jsstring) : Message :=
  plain_message (Date_now clk + 1) ERROR (lit "Error: " ++ text) (toLocaleTimeString clk).

(** ** The suspended handlers there can be *)

Definition chat_entry (prompt target : jsstring) (verbose : bool) : suspended :=
  {| awaiting := sendPrompt prompt target verbose;
     resume := fun awaited clk => exec (handleSendMessage_continue awaited clk) |}.

Definition repository_entry (newPath : jsstring) : suspended :=
  {| awaiting := validateRepository newPath;
     resume := fun awaited clk => exec (handleDirectoryChange_repository newPath awaited clk) |}.

Definition directory_entry (newPath : jsstring) : suspended :=
  {| awaiting := validateDirectory newPath;
     resume := fun awaited clk => exec (handleDirectoryChange_directory newPath awaited clk) |}.

Definition health_entry : suspended :=
  {| awaiting := checkBackendHealth;
     resume := fun awaited _ => exec (checkHealth_continue awaited) |}.

(** A suspended handler that one of the three handlers has left. *)
Inductive known : suspended -> Prop :=
| known_chat (prompt target : jsstring) (verbose : bool) :
    known (chat_entry prompt target verbose)
| known_repository (newPath : jsstring) : known (repository_entry newPath)
| known_directory (newPath : jsstring) : known (directory_entry newPath)
| known_health : known health_entry.

(** A property of the state that every move of the page keeps: the handlers
    up to their [await], where the page lets them run, and the rest of every
    suspended handler, however its request comes out. *)
Definition stable (Inv : State -> Prop) : Prop :=
  (forall st clk, Inv st -> Inv (fst (submit_form clk st)))
  /\ (forall st answer, Inv st -> Inv (fst (click_change answer st)))
  /\ (forall st, Inv st -> banner_shown st = true -> Inv (clearError st))
  /\ (forall st, Inv st -> verbose_toggle_shown st = true -> Inv (onClick_verbose st))
  /\ (forall st, Inv st -> Inv (handleSlideUp st))
  /\ (forall st text, Inv st -> input_disabled st = false -> Inv (onChange_input text st))
  /\ (forall st s r clk, Inv st -> known s -> Inv (resume s (settle (awaiting s) r) clk st)).

(** Handler code that, completing or throwing, adds to the end of the
    history only messages that satisfy [P]. *)
Definition appends_only {A : Type} (P : Message -> Prop) (c : action A) : Prop :=
  forall st, exists added, messages (snd (c st)) = messages st ++ added /\ Forall P added.

(** [backendStatus] before the first health check has been answered, or
    after one has: [healthy] is a boolean, and [checking] does not come
    back. *)
Definition status_settled (status : BackendStatus) : Prop :=
  status = {| healthy := VBool false; checking := true |}
  \/ exists b, status = {| healthy := VBool b; checking := false |}.

(** The request [sendPrompt] sends for the state [st]. *)
Definition chat_request (st : State) : http_request :=
  {| url := API_BASE_URL ++ lit "/chat";
     method := POST;
     headers := [(lit "Content-Type", lit "application/json")];
     body := Some (VObj [(lit "prompt", VStr (inputMessage st));
                         (lit "working_directory", VStr (workingDirectory st));
                         (lit "verbose", VBool (verboseMode st))]) |}.

End Spec.
End Spec.
Import Spec.

(* ===================================================================== *)
(** * Properties of the string built-ins *)
(* ===================================================================== *)

Module JsStringFacts.

Lemma trimStart_whitespace (s : jsstring) : whitespace_only s -> trimStart s = [].
Proof.
  induction 1 as [|c rest Hc _ IH]; simpl; [reflexivity|].
  rewrite Hc. exact IH.
Qed.

(** [trimStart] returns a suffix that is empty or starts with a code unit
    that is not white space, having dropped white space only. *)
Lemma trimStart_split (s : jsstring) :
  exists ws, s = ws ++ trimStart s /\ whitespace_only ws.
Proof.
  induction s as [|c rest [ws [Heq Hws]]]; simpl.
  - exists []. split; [reflexivity|constructor].
  - destruct (is_white_space c) eqn:Hc.
    + exists (c :: ws). split.
      * simpl. f_equal. exact Heq.
      * constructor; assumption.
    + exists []. split; [reflexivity|constructor].
Qed.

Lemma trimStart_nil_inv (s : jsstring) : trimStart s = [] -> whitespace_only s.
Proof.
  intros Hnil. destruct (trimStart_split s) as [ws [Heq Hws]].
  rewrite Hnil, app_nil_r in Heq. subst ws. exact Hws.
Qed.

Lemma trimStart_head (s : jsstring) c rest :
  trimStart s = c :: rest -> is_white_space c = false.
Proof.
  induction s as [|d s' IH]; simpl; [discriminate|].
  destruct (is_white_space d) eqn:Hd.
  - exact IH.
  - intros Heq. injection Heq as -> _. exact Hd.
Qed.

Lemma whitespace_only_rev (s : jsstring) : whitespace_only (rev s) -> whitespace_only s.
Proof.
  unfold whitespace_only. rewrite !Forall_forall.
  intros Hall c Hin. apply Hall. apply in_rev in Hin. exact Hin.
Qed.

(** [!s.trim()] holds exactly of the strings that are empty or made of white
    space only. *)
Lemma trim_empty_iff (s : jsstring) : trim s = [] <-> whitespace_only s.
Proof.
  unfold trim, trimEnd. split.
  - intros Hnil.
    assert (Hrev : trimStart (rev (trimStart s)) = []).
    { apply (f_equal (@rev N)) in Hnil. rewrite rev_involutive in Hnil. exact Hnil. }
    apply trimStart_nil_inv, whitespace_only_rev in Hrev.
    destruct (trimStart s) as [|c rest] eqn:Hts.
    + apply trimStart_nil_inv. exact Hts.
    + apply trimStart_head in Hts. inversion Hrev; subst. congruence.
  - intros Hws. rewrite (trimStart_whitespace Hws). reflexivity.
Qed.

Lemma startsWith_spec (s prefix : jsstring) :
  startsWith s prefix = true <-> begins_with prefix s.
Proof.
  unfold begins_with. revert s.
  induction prefix as [|p prefix' IH]; intros s; simpl.
  - split; [intros _; exists s; reflexivity | reflexivity].
  - destruct s as [|c s'].
    + split; [discriminate | intros [post Heq]; discriminate].
    + rewrite andb_true_iff, N.eqb_eq, IH. split.
      * intros [-> [post ->]]. exists post. reflexivity.
      * intros [post Heq]. injection Heq as -> ->. split; [reflexivity | exists post; reflexivity].
Qed.

Lemma includes_spec (s sub : jsstring) :
  includes s sub = true <-> occurs_in sub s.
Proof.
  unfold occurs_in. induction s as [|c s' IH].
  - simpl. rewrite orb_false_r, startsWith_spec. split.
    + intros [post Heq]. exists [], post. exact Heq.
    + intros [pre [post Heq]]. destruct pre; [|discriminate].
      exists post. exact Heq.
  - cbn [includes]. rewrite orb_true_iff, startsWith_spec, IH. split.
    + intros [[post Heq] | [pre [post Heq]]].
      * exists [], post. exact Heq.
      * exists (c :: pre), post. rewrite Heq. reflexivity.
    + intros [pre [post Heq]]. destruct pre as [|d pre'].
      * left. exists post. exact Heq.
      * right. injection Heq as _ Heq. exists pre', post. exact Heq.
Qed.

End JsStringFacts.
Import JsStringFacts.


(* ===================================================================== *)
(** * Properties of the API client *)
(* ===================================================================== *)

Module ApiFacts.
Section ApiFacts.
Context {H : Host}.

(** [validateDirectory] and [validateRepository] are the same function of
    the outcome of their request. *)
Lemma validate_settle (target : jsstring) (r : fetched) :
  settle (validateDirectory target) r
  = match r with
    | Normal response =>
        match json response with
        | Normal data => Normal data
        | Throw e => Normal (invalid e)
        end
    | Throw e => Normal (invalid e)
    end
  /\ settle (validateRepository target) r = settle (validateDirectory target) r.
Proof.
  split; [|reflexivity].
  destruct r as [response|e]; simpl; [|reflexivity].
  destruct (json response); reflexivity.
Qed.

Lemma validateDirectory_returns (directory : jsstring) (r : fetched) :
  returns (settle (validateDirectory directory) r).
Proof.
  destruct (validate_settle directory r) as [-> _].
  destruct r as [response|e]; [destruct (json response)|]; eexists; reflexivity.
Qed.

Lemma validateRepository_returns (repoUrl : jsstring) (r : fetched) :
  returns (settle (validateRepository repoUrl) r).
Proof.
  destruct (validate_settle repoUrl r) as [_ ->]. apply validateDirectory_returns.
Qed.

Lemma checkBackendHealth_returns (r : fetched) :
  returns (settle checkBackendHealth r).
Proof.
  destruct r as [response|e]; simpl; [|eexists; reflexivity].
  destruct (json response); eexists; reflexivity.
Qed.

(** The promise of [checkBackendHealth] resolves to an object whose
    [healthy] is a boolean: [response.ok] when a JSON body arrived, else
    [false]. *)
Lemma checkBackendHealth_healthy (r : fetched) :
  exists health,
    settle checkBackendHealth r = Normal health
    /\ get health (lit "healthy")
       = Normal (VBool match r with
                       | Normal response =>
                           match json response with
                           | Normal _ => ok response
                           | Throw _ => false
                           end
                       | Throw _ => false
                       end).
Proof.
  destruct r as [response|e]; simpl; [|eexists; split; reflexivity].
  destruct (json response); eexists; split; reflexivity.
Qed.

(** Whatever [sendPrompt] catches it throws again. *)
Lemma sendPrompt_throws (prompt workingDirectory : jsstring) (verbose : bool) (r : fetched) :
  transport_fails r -> throws (settle (sendPrompt prompt workingDirectory verbose) r).
Proof.
  intros Hfail. cbn [settle sendPrompt].
  destruct r as [response|e]; cbn [try_catch Js.bind]; [|eexists; reflexivity].
  cbn [transport_fails] in Hfail. rewrite Hfail. cbn [negb].
  destruct (json response) as [data|e]; cbn [Js.bind]; [|eexists; reflexivity].
  destruct (get data (lit "error")) as [server_error|e]; cbn [Js.bind]; [|eexists; reflexivity].
  destruct (to_string _); cbn [Js.bind]; eexists; reflexivity.
Qed.

(** On a 2xx answer with a JSON body, [sendPrompt] returns the body. *)
Lemma sendPrompt_ok (prompt workingDirectory : jsstring) (verbose : bool)
    (response : Response) (data : value) :
  ok response = true -> json response = Normal data ->
  settle (sendPrompt prompt workingDirectory verbose) (Normal response) = Normal data.
Proof.
  intros Hok Hjson. cbn [settle sendPrompt Js.bind]. rewrite Hjson, Hok. reflexivity.
Qed.

(** The error [sendPrompt] throws on a non-2xx answer: the server's message
    when the body has one, else one made from the status. *)
Lemma sendPrompt_error_message (prompt workingDirectory : jsstring) (verbose : bool)
    (response : Response) (props : list (jsstring * value)) :
  ok response = false -> json response = Normal (VObj props) ->
  settle (sendPrompt prompt workingDirectory verbose) (Normal response)
  = match own_property (lit "error") props with
    | Some (VStr (c :: msg)) => Throw (Error (c :: msg))
    | Some (VStr []) | Some VNull | Some VUndefined | Some (VBool false) | None =>
        Throw (Error (lit "HTTP error! status: " ++ of_N (status response)))
    | Some other =>
        if truthy other
        then match to_string other with
             | Normal msg => Throw (Error msg)
             | Throw e => Throw e
             end
        else Throw (Error (lit "HTTP error! status: " ++ of_N (status response)))
    end.
Proof.
  intros Hok Hjson. cbn [settle sendPrompt Js.bind]. rewrite Hjson. cbn [Js.bind].
  rewrite Hok. cbn [negb get]. unfold or_else.
  destruct (own_property (lit "error") props) as [[| |[]|n|[|c msg]|elems|fields]|];
    cbn [Js.bind truthy]; try reflexivity.
  - destruct (num_truthy n); reflexivity.
  - destruct (to_string (VArr elems)); reflexivity.
  - destruct (to_string (VObj fields)); reflexivity.
Qed.

(** C10. [validateDirectory] and [validateRepository] do not look at the
    status code: a body that parses as JSON is returned as it is, whatever
    the status, 2xx or not; only what is thrown (a rejected request, a body
    that is not JSON) becomes [{valid: false, error: message}]. *)
Theorem validation_ignores_status (target : jsstring) :
  (forall code data,
     settle (validateDirectory target) (Normal {| status := code; json := Normal data |})
     = Normal data
     /\ settle (validateRepository target) (Normal {| status := code; json := Normal data |})
        = Normal data)
  /\ (forall code code' body,
        settle (validateDirectory target) (Normal {| status := code; json := body |})
        = settle (validateDirectory target) (Normal {| status := code'; json := body |})
        /\ settle (validateRepository target) (Normal {| status := code; json := body |})
           = settle (validateRepository target) (Normal {| status := code'; json := body |}))
  /\ (forall code e,
        settle (validateDirectory target) (Normal {| status := code; json := Throw e |})
        = Normal (invalid e)
        /\ settle (validateRepository target) (Normal {| status := code; json := Throw e |})
           = Normal (invalid e))
  /\ (forall e,
        settle (validateDirectory target) (Throw e) = Normal (invalid e)
        /\ settle (validateRepository target) (Throw e) = Normal (invalid e)).
Proof. repeat split. Qed.

End ApiFacts.
End ApiFacts.
Import ApiFacts.

(* ===================================================================== *)
(** * Properties of the controller *)
(* ===================================================================== *)

Module AppFacts.
Import App.
Section AppFacts.
Context {H : Host}.

(** ** The history only grows *)

Lemma extends_refl (l : list Message) : extends l l.
Proof. exists []. symmetry. apply app_nil_r. Qed.

Lemma extends_trans (a b c : list Message) : extends a b -> extends b c -> extends a c.
Proof. intros [x ->] [y ->]. exists (x ++ y). symmetry. apply app_assoc. Qed.

Lemma extends_app (l more : list Message) : extends l (l ++ more).
Proof. exists more. reflexivity. Qed.

Lemma appends_push (m : Message) : appends (setMessages (fun prev => prev ++ [m])).
Proof. intros st. apply extends_app. Qed.

Lemma appends_keep (f : State -> State) :
  (forall st, messages (f st) = messages st) -> appends f.
Proof. intros Hkeep st. rewrite Hkeep. apply extends_refl. Qed.

Lemma appends_compose (f g : State -> State) :
  appends f -> appends g -> appends (fun st => g (f st)).
Proof. intros Hf Hg st. eapply extends_trans; [apply Hf | apply Hg]. Qed.

Lemma append_only_ret {A} (a : A) : append_only (ret a).
Proof. intros st. apply extends_refl. Qed.

Lemma append_only_eval {A} (c : completion A) : append_only (eval c).
Proof. intros st. apply extends_refl. Qed.

Lemma append_only_update (f : State -> State) : appends f -> append_only (update f).
Proof. intros Hf st. apply Hf. Qed.

Lemma append_only_abind {A B} (c : action A) (k : A -> action B) :
  append_only c -> (forall a, append_only (k a)) -> append_only (abind c k).
Proof.
  intros Hc Hk st. unfold abind. specialize (Hc st).
  destruct (c st) as [[a|e] st']; simpl in *.
  - eapply extends_trans; [exact Hc | apply Hk].
  - exact Hc.
Qed.

Lemma append_only_try_catch_finally (body : action unit) (handler : exn -> action unit)
    (final : action unit) :
  append_only body -> (forall e, append_only (handler e)) -> append_only final ->
  append_only (try_catch_finally body handler final).
Proof.
  intros Hb Hh Hf st. unfold try_catch_finally. specialize (Hb st).
  destruct (body st) as [[[]|e] st1]; simpl in Hb.
  - specialize (Hf st1). destruct (final st1) as [[[]|e] st2]; simpl in *;
      eapply extends_trans; eassumption.
  - specialize (Hh e st1). destruct (handler e st1) as [caught st2]; simpl in Hh.
    specialize (Hf st2). destruct (final st2) as [[[]|e'] st3]; simpl in *;
      (eapply extends_trans; [exact Hb|]; eapply extends_trans; eassumption).
Qed.

Lemma appends_exec (c : action unit) : append_only c -> appends (exec c).
Proof. intros Hc st. apply Hc. Qed.

Create HintDb history.
#[local] Hint Resolve append_only_ret append_only_eval append_only_update
  append_only_try_catch_finally appends_push appends_exec extends_refl : history.
#[local] Hint Extern 1 (appends _) => (apply appends_keep; intros; reflexivity) : history.

(** Decompose handler code along its binds and branches. *)
Ltac history :=
  repeat first
    [ apply append_only_try_catch_finally
    | apply append_only_abind; [|intros ?]
    | match goal with
      | |- append_only (if ?b then _ else _) => destruct b
      | |- forall _, _ => intros ?
      end
    | solve [auto with history] ].

Lemma handleSendMessage_continue_append_only (awaited : completion value) (clk : clock) :
  append_only (handleSendMessage_continue awaited clk).
Proof. unfold handleSendMessage_continue. history. Qed.

Lemma handleDirectoryChange_repository_append_only (newPath : jsstring)
    (awaited : completion value) (clk : clock) :
  append_only (handleDirectoryChange_repository newPath awaited clk).
Proof. unfold handleDirectoryChange_repository. history. Qed.

Lemma handleDirectoryChange_directory_append_only (newPath : jsstring)
    (awaited : completion value) (clk : clock) :
  append_only (handleDirectoryChange_directory newPath awaited clk).
Proof. unfold handleDirectoryChange_directory. history. Qed.

Lemma checkHealth_continue_append_only (awaited : completion value) :
  append_only (checkHealth_continue awaited).
Proof. unfold checkHealth_continue. history. Qed.


Lemma handleSendMessage_sound (clk : clock) : sound_start (handleSendMessage clk).
Proof.
  intros st. unfold handleSendMessage.
  destruct (is_empty (trim (inputMessage st)) || isTyping st); simpl.
  - split; [apply extends_refl | exact I].
  - split; [apply extends_app|].
    intros awaited clk'. apply appends_exec, handleSendMessage_continue_append_only.
Qed.

Lemma handleDirectoryChange_sound (answer : option jsstring) :
  sound_start (handleDirectoryChange answer).
Proof.
  intros st. unfold handleDirectoryChange.
  destruct answer as [[|c newPath]|]; simpl; try (split; [apply extends_refl | exact I]).
  destruct (isGitUrl (c :: newPath)); simpl; (split; [apply extends_refl|]);
    intros awaited clk'; apply appends_exec.
  - apply handleDirectoryChange_repository_append_only.
  - apply handleDirectoryChange_directory_append_only.
Qed.

Lemma checkHealth_sound : sound_start checkHealth.
Proof.
  intros st. simpl. split; [apply extends_refl|].
  intros awaited clk'. apply appends_exec, checkHealth_continue_append_only.
Qed.

Lemma submit_form_sound (clk : clock) : sound_start (submit_form clk).
Proof.
  intros st. unfold submit_form. destruct (submit_disabled st).
  - split; [apply extends_refl | exact I].
  - apply handleSendMessage_sound.
Qed.

Lemma click_change_sound (answer : option jsstring) : sound_start (click_change answer).
Proof.
  intros st. unfold click_change. destruct (change_disabled st).
  - split; [apply extends_refl | exact I].
  - apply handleDirectoryChange_sound.
Qed.

Lemma remove_nth_Forall {A} (P : A -> Prop) (i : nat) (l : list A) :
  Forall P l -> Forall P (remove_nth i l).
Proof.
  intros Hall. revert i. induction Hall as [|x rest Hx Hrest IH]; intros i.
  - destruct i; constructor.
  - destruct i as [|i']; simpl; [exact Hrest|]. constructor; [exact Hx | apply IH].
Qed.

Lemma launch_step (sys : System) (start : State -> State * option suspended) :
  sound_start start -> well_formed sys ->
  well_formed (launch sys (start (ui sys)))
  /\ extends (messages (ui sys)) (messages (ui (launch sys (start (ui sys))))).
Proof.
  intros Hstart Hwf. destruct (Hstart (ui sys)) as [Hext Hsusp].
  split; [|exact Hext].
  unfold well_formed, launch. simpl. apply Forall_app. split; [exact Hwf|].
  destruct (snd (start (ui sys))); [constructor; [exact Hsusp | constructor] | constructor].
Qed.

Lemma step_history (sys : System) (ev : event) :
  well_formed sys ->
  well_formed (step sys ev) /\ extends (messages (ui sys)) (messages (ui (step sys ev))).
Proof.
  intros Hwf. destruct ev as [clk|answer| | | |text| |i r clk]; cbn [step].
  - apply launch_step; [apply submit_form_sound | exact Hwf].
  - apply launch_step; [apply click_change_sound | exact Hwf].
  - destruct (banner_shown (ui sys)); (split; [exact Hwf | apply extends_refl]).
  - destruct (verbose_toggle_shown (ui sys)); (split; [exact Hwf | apply extends_refl]).
  - split; [exact Hwf | apply extends_refl].
  - destruct (input_disabled (ui sys)); (split; [exact Hwf | apply extends_refl]).
  - apply launch_step; [apply checkHealth_sound | exact Hwf].
  - destruct (nth_error (in_flight sys) i) as [s|] eqn:Hnth.
    + split.
      * apply remove_nth_Forall. exact Hwf.
      * simpl. apply nth_error_In in Hnth.
        unfold well_formed in Hwf. rewrite Forall_forall in Hwf.
        apply (Hwf s Hnth).
    + split; [exact Hwf | apply extends_refl].
Qed.

Lemma run_history (evs : list event) (sys : System) :
  well_formed sys ->
  well_formed (run sys evs) /\ extends (messages (ui sys)) (messages (ui (run sys evs))).
Proof.
  revert sys. induction evs as [|ev evs IH]; intros sys Hwf.
  - split; [exact Hwf | apply extends_refl].
  - destruct (step_history ev Hwf) as [Hwf' Hext].
    destruct (IH (step sys ev) Hwf') as [Hwf'' Hext'].
    split; [exact Hwf''|]. eapply extends_trans; [exact Hext | exact Hext'].
Qed.

Lemma mount_well_formed (clk : clock) : well_formed (mount clk).
Proof.
  unfold mount.
  apply (launch_step (sys := {| ui := initial_state clk; in_flight := [] |}) checkHealth_sound).
  constructor.
Qed.

(** C9. The message history is append-only.  Each operation of the
    controller keeps the history or adds messages at its end: the handlers up
    to their [await] ([handleSendMessage], [handleDirectoryChange], the
    health check, [clearError] and the other setters) and the code they run
    when their request settles, in each of its branches.  Hence on every run
    of the mounted component, under every interleaving of user events, timer
    ticks and settling requests, the history at a later point is the history
    at an earlier point followed by the messages appended since: no message
    is modified, reordered or removed. *)
Theorem history_append_only (clk : clock) (before after : list event) :
  (forall awaited clk', append_only (handleSendMessage_continue awaited clk'))
  /\ (forall newPath awaited clk',
        append_only (handleDirectoryChange_repository newPath awaited clk')
        /\ append_only (handleDirectoryChange_directory newPath awaited clk'))
  /\ (forall awaited, append_only (checkHealth_continue awaited))
  /\ (forall clk' answer st,
        extends (messages st) (messages (fst (handleSendMessage clk' st)))
        /\ extends (messages st) (messages (fst (handleDirectoryChange answer st)))
        /\ messages (fst (checkHealth st)) = messages st
        /\ messages (clearError st) = messages st)
  /\ extends (messages (ui (run (mount clk) before)))
             (messages (ui (run (mount clk) (before ++ after)))).
Proof.
  split; [intros; apply handleSendMessage_continue_append_only|].
  split; [intros; split;
          [apply handleDirectoryChange_repository_append_only
          |apply handleDirectoryChange_directory_append_only]|].
  split; [intros; apply checkHealth_continue_append_only|].
  split.
  - intros clk' answer st. repeat split.
    + apply handleSendMessage_sound.
    + apply handleDirectoryChange_sound.
  - unfold run. rewrite fold_left_app. fold (run (mount clk) before).
    apply run_history. apply run_history. apply mount_well_formed.
Qed.


(** ** [clearError] *)

(** C8. [clearError] resets the session error to none ([null]) and changes
    nothing else: the history, the target, the health flags and the pending
    flag, as well as the input buffer and the two display flags, are as
    before. *)
Theorem clearError_frame (st : State) :
  error (clearError st) = None
  /\ messages (clearError st) = messages st
  /\ workingDirectory (clearError st) = workingDirectory st
  /\ backendStatus (clearError st) = backendStatus st
  /\ isTyping (clearError st) = isTyping st
  /\ inputMessage (clearError st) = inputMessage st
  /\ verboseMode (clearError st) = verboseMode st
  /\ showCover (clearError st) = showCover st.
Proof. repeat split. Qed.

(** ** The entry guards *)

Lemma is_empty_trim_iff (s : jsstring) : is_empty (trim s) = true <-> whitespace_only s.
Proof.
  rewrite <- trim_empty_iff. destruct (trim s); simpl; split; congruence.
Qed.

Lemma is_empty_trim_false (s : jsstring) : ~ whitespace_only s -> is_empty (trim s) = false.
Proof.
  intros Hnot. destruct (is_empty (trim s)) eqn:Hempty; [|reflexivity].
  apply is_empty_trim_iff in Hempty. contradiction.
Qed.

(** C3. Submitting when the input is empty or white space only, or while a
    request is in flight ([isTyping]), does nothing: the handler returns the
    state it was given, history included, and sends no request. *)
Theorem submit_noop (clk : clock) (st : State) :
  whitespace_only (inputMessage st) \/ isTyping st = true ->
  handleSendMessage clk st = (st, None)
  /\ messages (fst (handleSendMessage clk st)) = messages st
  /\ dispatched (handleSendMessage clk st) = None.
Proof.
  intros Hguard.
  assert (Hnoop : handleSendMessage clk st = (st, None)).
  { unfold handleSendMessage.
    destruct Hguard as [Hblank | Hbusy].
    - apply is_empty_trim_iff in Hblank. rewrite Hblank. reflexivity.
    - rewrite Hbusy, orb_true_r. reflexivity. }
  rewrite Hnoop. repeat split.
Qed.

Lemma launch_nothing (sys : System) : launch sys (ui sys, None) = sys.
Proof. destruct sys as [st pending]. unfold launch. simpl. rewrite app_nil_r. reflexivity. Qed.

(** C2, as the code has it.  While a request is in flight the Change button
    is disabled ([disabled={isTyping}]), as the submit button is: a click on
    it, or a submission of the form, runs no handler, so that no request is
    sent and the state and the requests pending stay as they are.  The test
    is made by the page: [handleDirectoryChange] itself does not read
    [isTyping]. *)
Theorem change_gated_by_button (sys : System) (answer : option jsstring) (clk : clock) :
  isTyping (ui sys) = true ->
  click_change answer (ui sys) = (ui sys, None)
  /\ dispatched (click_change answer (ui sys)) = None
  /\ step sys (ClickChange answer) = sys
  /\ step sys (Submit clk) = sys.
Proof.
  intros Hbusy.
  assert (Hclick : click_change answer (ui sys) = (ui sys, None)).
  { unfold click_change, change_disabled. rewrite Hbusy. reflexivity. }
  assert (Hsubmit : submit_form clk (ui sys) = (ui sys, None)).
  { unfold submit_form, submit_disabled. rewrite Hbusy, orb_true_r. reflexivity. }
  cbn [step]. rewrite Hclick, Hsubmit. repeat split; apply launch_nothing.
Qed.

(** ** The routing of [handleDirectoryChange] *)

Lemma isGitUrl_spec (newPath : jsstring) : isGitUrl newPath = true <-> git_reference newPath.
Proof.
  unfold isGitUrl, git_reference.
  rewrite !orb_true_iff, !includes_spec, !startsWith_spec. tauto.
Qed.

Lemma isGitUrl_false (newPath : jsstring) : isGitUrl newPath = false <-> ~ git_reference newPath.
Proof.
  rewrite <- isGitUrl_spec. destruct (isGitUrl newPath); split; congruence.
Qed.

Lemma validation_requests_differ (a b : jsstring) :
  request (validateRepository a) <> request (validateDirectory b).
Proof.
  intros Heq. apply (f_equal url) in Heq. vm_compute in Heq. discriminate.
Qed.

(** C6. For a non-empty [newValue], [handleDirectoryChange] takes it for a
    Git reference exactly when it contains [github.com], [gitlab.com] or
    [.git], or starts with [https://] or [http://]; it then calls
    [validateRepository] on it, and otherwise [validateDirectory], and the
    one call it makes is never the other one. *)
Theorem changeTarget_routes (newValue : jsstring) (st : State) :
  newValue <> [] ->
  (isGitUrl newValue = true <-> git_reference newValue)
  /\ (git_reference newValue ->
      called (handleDirectoryChange (Some newValue) st) = Some (validateRepository newValue)
      /\ dispatched (handleDirectoryChange (Some newValue) st)
         <> Some (request (validateDirectory newValue)))
  /\ (~ git_reference newValue ->
      called (handleDirectoryChange (Some newValue) st) = Some (validateDirectory newValue)
      /\ dispatched (handleDirectoryChange (Some newValue) st)
         <> Some (request (validateRepository newValue))).
Proof.
  intros Hnonempty. split; [apply isGitUrl_spec|].
  destruct newValue as [|c rest]; [congruence|].
  unfold called, dispatched, handleDirectoryChange. split.
  - intros Hgit. apply isGitUrl_spec in Hgit. rewrite Hgit.
    cbn [snd option_map awaiting]. split; [reflexivity|].
    intros Heq. apply (@validation_requests_differ (c :: rest) (c :: rest)). congruence.
  - intros Hlocal. apply isGitUrl_false in Hlocal. rewrite Hlocal.
    cbn [snd option_map awaiting]. split; [reflexivity|].
    intros Heq. apply (@validation_requests_differ (c :: rest) (c :: rest)). congruence.
Qed.

(** ** Back to idle *)

Lemma finally_runs (body : action unit) (handler : exn -> action unit) (f : State -> State)
    (st : State) :
  exists st', exec (try_catch_finally body handler (update f)) st = f st'.
Proof.
  unfold exec, try_catch_finally, update.
  destruct (body st) as [[[]|e] st1]; [exists st1; reflexivity|].
  destruct (handler e st1) as [caught st2]. exists st2. reflexivity.
Qed.

Lemma handleSendMessage_continue_idle (awaited : completion value) (clk : clock) (st : State) :
  isTyping (exec (handleSendMessage_continue awaited clk) st) = false.
Proof.
  unfold handleSendMessage_continue.
  match goal with
  | |- context [try_catch_finally ?b ?h _] => destruct (finally_runs b h (setIsTyping false) st) as [st' ->]
  end.
  reflexivity.
Qed.

Lemma handleDirectoryChange_repository_idle (newPath : jsstring) (awaited : completion value)
    (clk : clock) (st : State) :
  isTyping (exec (handleDirectoryChange_repository newPath awaited clk) st) = false.
Proof.
  unfold handleDirectoryChange_repository.
  match goal with
  | |- context [try_catch_finally ?b ?h _] => destruct (finally_runs b h (setIsTyping false) st) as [st' ->]
  end.
  reflexivity.
Qed.

Lemma handleDirectoryChange_directory_idle (newPath : jsstring) (awaited : completion value)
    (clk : clock) (st : State) :
  isTyping (exec (handleDirectoryChange_directory newPath awaited clk) st) = false.
Proof.
  unfold handleDirectoryChange_directory.
  match goal with
  | |- context [try_catch_finally ?b ?h _] => destruct (finally_runs b h (setIsTyping false) st) as [st' ->]
  end.
  reflexivity.
Qed.

(** C7. Past the entry guard of [handleSendMessage], and past the dialog of
    [handleDirectoryChange] when it reaches a validation call, the handler is
    suspended on its request; when the request settles, however it comes out
    (a result, a value-level failure, a thrown transport error) and whatever
    happened to the state meanwhile, the rest of the handler ends with
    [isTyping] cleared, and a new non-blank prompt can be submitted from the
    state it leaves. *)
Theorem returns_to_idle :
  (forall clk st s,
     snd (handleSendMessage clk st) = Some s ->
     forall awaited clk' st' clk'' text,
       isTyping (resume s awaited clk' st') = false
       /\ (~ whitespace_only text ->
           dispatched (handleSendMessage clk''
                         (setInputMessage text (resume s awaited clk' st'))) <> None))
  /\ (forall answer st s,
        snd (handleDirectoryChange answer st) = Some s ->
        forall awaited clk' st' clk'' text,
          isTyping (resume s awaited clk' st') = false
          /\ (~ whitespace_only text ->
              dispatched (handleSendMessage clk''
                            (setInputMessage text (resume s awaited clk' st'))) <> None)).
Proof.
  assert (Husable : forall st clk text,
             isTyping st = false -> ~ whitespace_only text ->
             dispatched (handleSendMessage clk (setInputMessage text st)) <> None).
  { intros st clk text Hidle Hnonblank. unfold dispatched, handleSendMessage.
    cbn [inputMessage isTyping setInputMessage].
    rewrite Hidle, (is_empty_trim_false Hnonblank). simpl. discriminate. }
  split.
  - intros clk st s Hstart awaited clk' st' clk'' text.
    unfold handleSendMessage in Hstart.
    destruct (is_empty (trim (inputMessage st)) || isTyping st); [discriminate|].
    injection Hstart as <-. cbn [resume].
    pose proof (handleSendMessage_continue_idle awaited clk' st') as Hidle.
    split; [exact Hidle | intros Hnonblank; apply Husable; assumption].
  - intros answer st s Hstart awaited clk' st' clk'' text.
    unfold handleDirectoryChange in Hstart.
    destruct answer as [[|c newPath]|]; try discriminate.
    destruct (isGitUrl (c :: newPath)); injection Hstart as <-; cbn [resume].
    + pose proof (handleDirectoryChange_repository_idle (c :: newPath) awaited clk' st') as Hidle.
      split; [exact Hidle | intros Hnonblank; apply Husable; assumption].
    + pose proof (handleDirectoryChange_directory_idle (c :: newPath) awaited clk' st') as Hidle.
      split; [exact Hidle | intros Hnonblank; apply Husable; assumption].
Qed.


(** ** A prompt and its answer *)

Lemma map_names (entries : list value) :
  Forall (fun fc => fc <> VNull /\ fc <> VUndefined) entries ->
  map_completion (fun fc => get fc (lit "name")) entries
  = Normal (map (fun fc => property fc (lit "name")) entries).
Proof.
  induction 1 as [|fc rest [Hnull Hundef] _ IH]; [reflexivity|].
  cbn [map_completion map]. rewrite IH. unfold property.
  destruct fc as [| |b|n|s|elems|props]; try congruence; cbn [get Js.bind]; try reflexivity.
  destruct (own_property (lit "name") props); reflexivity.
Qed.

Lemma optional_map_names (calls : value) :
  calls_listed calls ->
  (names <- optional_map calls (fun fc => get fc (lit "name")) ;;
   Normal (or_else names (VArr [])))%completion
  = Normal (function_names calls).
Proof.
  destruct calls as [| |b|n|s|entries|props]; cbn [calls_listed]; try contradiction;
    try reflexivity.
  intros Hlisted. cbn [optional_map]. rewrite (map_names Hlisted). reflexivity.
Qed.

Lemma get_object (props : list (jsstring * value)) (key : jsstring) :
  get (VObj props) key = Normal (property (VObj props) key).
Proof. unfold property. cbn [get]. destruct (own_property key props); reflexivity. Qed.

(** Past the guard, the handler up to its [await]. *)
Lemma handleSendMessage_started (clk : clock) (st : State) :
  ~ whitespace_only (inputMessage st) -> isTyping st = false ->
  handleSendMessage clk st
  = (setIsTyping true
       (setInputMessage []
          (setMessages (fun prev => prev ++ [userMessage_of clk st]) (setError None st))),
     Some {| awaiting := sendPrompt (inputMessage st) (workingDirectory st) (verboseMode st);
             resume := fun awaited clk' => exec (handleSendMessage_continue awaited clk') |}).
Proof.
  intros Hnonblank Hidle. unfold handleSendMessage.
  rewrite (is_empty_trim_false Hnonblank), Hidle. reflexivity.
Qed.

(** The rest of the handler on a success result. *)
Lemma handleSendMessage_continue_success (response : value) (clk : clock) (st : State) :
  success_result response ->
  exec (handleSendMessage_continue (Normal response) clk) st
  = setIsTyping false
      (setMessages
         (fun prev =>
            prev ++ [{| id := Date_now clk + 1;
                        type := AI;
                        content := property response (lit "finalResponse");
                        timestamp := toLocaleTimeString clk;
                        functionCalls :=
                          Some (function_names (property response (lit "functionCalls")));
                        tokenCount := Some (property response (lit "tokenCounts"));
                        iterations := Some (property response (lit "totalIterations"));
                        repositoryInfo := Some (property response (lit "repositoryInfo")) |}])
         st).
Proof.
  intros [[props ->] [Hsuccess Hcalls]].
  pose proof (optional_map_names _ Hcalls) as Hnames.
  unfold handleSendMessage_continue, exec, try_catch_finally, abind, eval, update.
  rewrite !get_object, Hsuccess.
  destruct (optional_map _ _) as [names|e]; cbn [Js.bind] in Hnames; [|discriminate].
  injection Hnames as Hnames. rewrite Hnames. reflexivity.
Qed.

(** C4. A prompt that is not blank, submitted while idle, is sent with
    [sendPrompt]; when that returns a success result, the history has grown
    by exactly two messages, the user's and then the assistant's, the latter
    filled from the response ([finalResponse], the names of the
    [functionCalls], [tokenCounts], [totalIterations], [repositoryInfo]), and
    [isTyping] is cleared again. *)
Theorem submit_success (clk clk' : clock) (st : State) (r : fetched) (response : value) :
  ~ whitespace_only (inputMessage st) ->
  isTyping st = false ->
  settle (sendPrompt (inputMessage st) (workingDirectory st) (verboseMode st)) r
  = Normal response ->
  success_result response ->
  called (handleSendMessage clk st)
  = Some (sendPrompt (inputMessage st) (workingDirectory st) (verboseMode st))
  /\ exists userMessage aiMessage,
       messages (complete r clk' (handleSendMessage clk st))
       = messages st ++ [userMessage; aiMessage]
       /\ List.length (messages (complete r clk' (handleSendMessage clk st)))
          = List.length (messages st) + 2
       /\ type userMessage = USER
       /\ content userMessage = VStr (inputMessage st)
       /\ type aiMessage = AI
       /\ content aiMessage = property response (lit "finalResponse")
       /\ functionCalls aiMessage
          = Some (function_names (property response (lit "functionCalls")))
       /\ tokenCount aiMessage = Some (property response (lit "tokenCounts"))
       /\ iterations aiMessage = Some (property response (lit "totalIterations"))
       /\ repositoryInfo aiMessage = Some (property response (lit "repositoryInfo"))
       /\ isTyping (complete r clk' (handleSendMessage clk st)) = false.
Proof.
  intros Hnonblank Hidle Hsettled Hsuccess.
  rewrite handleSendMessage_started by assumption.
  split; [reflexivity|].
  unfold complete. cbn [snd fst awaiting resume]. rewrite Hsettled.
  rewrite handleSendMessage_continue_success by assumption.
  eexists. eexists. cbn [messages setIsTyping setMessages setInputMessage setError isTyping].
  split; [rewrite <- app_assoc; reflexivity|].
  split; [rewrite !length_app; simpl; lia|].
  repeat split.
Qed.

(** The rest of the handler on that failure. *)
Lemma handleSendMessage_continue_failure (e : jsstring) (clk : clock) (st : State) :
  e <> [] ->
  exec (handleSendMessage_continue (Normal (failure_result e)) clk) st
  = setIsTyping false
      (setMessages
         (fun prev =>
            prev ++ [plain_message (Date_now clk + 1) ERROR (lit "Error: " ++ e)
                       (toLocaleTimeString clk)])
         st).
Proof.
  intros Hnonempty. destruct e as [|c e']; [congruence|]. reflexivity.
Qed.

(** C5. When [sendPrompt] returns the value-level failure
    [{success: false, error: "boom"}] (or any other non-empty error text in
    the place of ["boom"]), the history grows by exactly two messages: the
    user's, then one of type ['error'] whose text is ["Error: "] followed by
    the error text, which it therefore contains. *)
Theorem submit_value_level_failure (clk clk' : clock) (st : State) (r : fetched)
    (e : jsstring) :
  ~ whitespace_only (inputMessage st) ->
  isTyping st = false ->
  e <> [] ->
  settle (sendPrompt (inputMessage st) (workingDirectory st) (verboseMode st)) r
  = Normal (failure_result e) ->
  exists userMessage errorMessage,
    messages (complete r clk' (handleSendMessage clk st))
    = messages st ++ [userMessage; errorMessage]
    /\ List.length (messages (complete r clk' (handleSendMessage clk st)))
       = List.length (messages st) + 2
    /\ type userMessage = USER
    /\ content userMessage = VStr (inputMessage st)
    /\ type errorMessage = ERROR
    /\ content errorMessage = VStr (lit "Error: " ++ e)
    /\ occurs_in e (lit "Error: " ++ e)
    /\ isTyping (complete r clk' (handleSendMessage clk st)) = false.
Proof.
  intros Hnonblank Hidle Hnonempty Hsettled.
  rewrite handleSendMessage_started by assumption.
  unfold complete. cbn [snd fst awaiting resume]. rewrite Hsettled.
  rewrite handleSendMessage_continue_failure by assumption.
  eexists. eexists. cbn [messages setIsTyping setMessages setInputMessage setError isTyping].
  split; [rewrite <- app_assoc; reflexivity|].
  split; [rewrite !length_app; simpl; lia|].
  repeat split.
  exists (lit "Error: "), []. rewrite app_nil_r. reflexivity.
Qed.


(** ** A failing transport *)

(** What the [catch] of [handleSendMessage] makes of a thrown error. *)
Lemma handleSendMessage_continue_thrown (e : exn) (clk : clock) (st : State) :
  exec (handleSendMessage_continue (Throw e) clk) st
  = setIsTyping false
      (setError (Some (message e))
         (setMessages
            (fun prev =>
               prev ++ [plain_message (Date_now clk + 1) ERROR
                          (lit "Failed to process request: " ++ message e)
                          (toLocaleTimeString clk)])
            st)).
Proof. reflexivity. Qed.

(** C1, as the code has it.  When the transport fails (the request is
    rejected, or answered with a status outside 200..299), [validateDirectory],
    [validateRepository] and [checkBackendHealth] return a value-level result.
    [sendPrompt] does not: what it catches it throws again, and it is its
    caller, [handleSendMessage], that turns the error into an ['error'] message
    and the session error. *)
Theorem transport_failure_results (prompt workingDirectory target : jsstring)
    (verbose : bool) (r : fetched) :
  transport_fails r ->
  returns (settle (validateDirectory target) r)
  /\ returns (settle (validateRepository target) r)
  /\ returns (settle checkBackendHealth r)
  /\ exists e,
       settle (sendPrompt prompt workingDirectory verbose) r = Throw e
       /\ forall clk st,
            let st' := exec (handleSendMessage_continue (Throw e) clk) st in
            messages st'
            = messages st ++ [plain_message (Date_now clk + 1) ERROR
                                (lit "Failed to process request: " ++ message e)
                                (toLocaleTimeString clk)]
            /\ error st' = Some (message e)
            /\ isTyping st' = false.
Proof.
  intros Hfails.
  split; [apply validateDirectory_returns|].
  split; [apply validateRepository_returns|].
  split; [apply checkBackendHealth_returns|].
  destruct (sendPrompt_throws prompt workingDirectory verbose r Hfails) as [e He].
  exists e. split; [exact He|].
  intros clk st. rewrite handleSendMessage_continue_thrown. repeat split.
Qed.

(** ** Single flight *)

Lemma checkHealth_continue_keeps_flag (awaited : completion value) (st : State) :
  isTyping (exec (checkHealth_continue awaited) st) = isTyping st.
Proof.
  unfold checkHealth_continue, exec, abind, eval, update, ret.
  destruct awaited as [health|e]; [|reflexivity].
  destruct (get health (lit "healthy")) as [is_healthy|e]; [|reflexivity].
  destruct (truthy is_healthy); reflexivity.
Qed.

Lemma remove_nth_filter {A} (p : A -> bool) (l : list A) (i : nat) (x : A) :
  nth_error l i = Some x ->
  List.length (filter p l)
  = List.length (filter p (remove_nth i l)) + (if p x then 1 else 0).
Proof.
  revert i. induction l as [|y rest IH]; intros i Hnth.
  - destruct i; discriminate.
  - destruct i as [|i']; simpl in Hnth.
    + injection Hnth as ->. simpl. destruct (p x); simpl; lia.
    + specialize (IH i' Hnth). simpl. destruct (p y); simpl; lia.
Qed.

Lemma submit_form_starts_one (clk : clock) (st : State) : starts_one st (submit_form clk st).
Proof.
  unfold starts_one, submit_form.
  destruct (submit_disabled st) eqn:Hdisabled; [reflexivity|].
  unfold submit_disabled in Hdisabled.
  apply orb_false_iff in Hdisabled. destruct Hdisabled as [Hguard _].
  unfold handleSendMessage. rewrite Hguard.
  apply orb_false_iff in Hguard. destruct Hguard as [_ Hidle].
  cbn [snd fst]. repeat split; [exact Hidle|].
  intros awaited clk' st'. cbn [resume].
  change (is_health_check _) with false. cbv iota.
  apply handleSendMessage_continue_idle.
Qed.

Lemma click_change_starts_one (answer : option jsstring) (st : State) :
  starts_one st (click_change answer st).
Proof.
  unfold starts_one, click_change, change_disabled.
  destruct (isTyping st) eqn:Hidle; [simpl; exact Hidle|].
  unfold handleDirectoryChange.
  destruct answer as [[|c newPath]|]; try (simpl; exact Hidle).
  destruct (isGitUrl (c :: newPath)); cbn [snd fst]; repeat split;
    intros awaited clk' st'; cbn [resume];
    change (is_health_check _) with false; cbv iota.
  - apply handleDirectoryChange_repository_idle.
  - apply handleDirectoryChange_directory_idle.
Qed.

Lemma launch_user (sys : System) (started : State * option suspended) :
  single_flight_invariant sys -> starts_one (ui sys) started ->
  single_flight_invariant (launch sys started).
Proof.
  intros [Hall Hcount] Hstart. unfold starts_one in Hstart.
  unfold single_flight_invariant, flag_counts, user_requests, launch in *.
  cbn [ui in_flight]. destruct (snd started) as [s|].
  - destruct Hstart as [Hidle [Hbusy [Huser Hflag]]]. split.
    + apply Forall_app. split; [exact Hall | constructor; [exact Hflag | constructor]].
    + rewrite Hidle in Hcount. rewrite Hbusy, filter_app, length_app, Hcount.
      simpl. rewrite Huser. reflexivity.
  - rewrite app_nil_r, Hstart. split; assumption.
Qed.

Lemma is_health_check_checkHealth (rest : completion value -> clock -> State -> State) :
  is_health_check {| awaiting := checkBackendHealth; resume := rest |} = true.
Proof. reflexivity. Qed.

Lemma launch_health (sys : System) :
  single_flight_invariant sys -> single_flight_invariant (launch sys (checkHealth (ui sys))).
Proof.
  intros [Hall Hcount].
  unfold single_flight_invariant, flag_counts, user_requests, launch in *.
  cbn [ui in_flight checkHealth fst snd]. split.
  - apply Forall_app. split; [exact Hall|]. constructor; [|constructor].
    intros awaited clk st. cbn [resume]. change (is_health_check _) with true. cbv iota.
    apply checkHealth_continue_keeps_flag.
  - rewrite filter_app, length_app. cbn [filter].
    rewrite is_health_check_checkHealth. cbn [negb List.length].
    rewrite Nat.add_0_r. exact Hcount.
Qed.

Lemma step_single_flight (sys : System) (ev : event) :
  single_flight_invariant sys -> single_flight_invariant (step sys ev).
Proof.
  intros Hinv. destruct ev as [clk|answer| | | |text| |i r clk]; cbn [step].
  - apply launch_user; [exact Hinv | apply submit_form_starts_one].
  - apply launch_user; [exact Hinv | apply click_change_starts_one].
  - destruct (banner_shown (ui sys)); exact Hinv.
  - destruct (verbose_toggle_shown (ui sys)); exact Hinv.
  - exact Hinv.
  - destruct (input_disabled (ui sys)); exact Hinv.
  - apply launch_health. exact Hinv.
  - destruct (nth_error (in_flight sys) i) as [s|] eqn:Hnth; [|exact Hinv].
    destruct Hinv as [Hall Hcount].
    unfold single_flight_invariant, flag_counts, user_requests in *. cbn [ui in_flight].
    split; [apply remove_nth_Forall; exact Hall|].
    pose proof (remove_nth_filter (fun s => negb (is_health_check s)) _ _ Hnth) as Hlen.
    cbv beta in Hlen.
    assert (Hflag : governs_flag s).
    { rewrite Forall_forall in Hall. apply Hall. eapply nth_error_In. exact Hnth. }
    rewrite (Hflag (settle (awaiting s) r) clk (ui sys)).
    destruct (is_health_check s); simpl in Hlen.
    + rewrite Nat.add_0_r in Hlen. rewrite <- Hlen. exact Hcount.
    + destruct (isTyping (ui sys)); lia.
Qed.

Lemma mount_single_flight (clk : clock) : single_flight_invariant (mount clk).
Proof.
  unfold mount.
  apply (launch_health (sys := {| ui := initial_state clk; in_flight := [] |})).
  split; [constructor | reflexivity].
Qed.

(** X21. Single flight, on the page: on every run of the mounted component, at
    most one of the requests in flight was started by the user, and there is
    one exactly while [isTyping] is set.  Health checks come and go beside
    it. *)
Lemma single_flight (clk : clock) (evs : list event) :
  List.length (user_requests (run (mount clk) evs))
  = if isTyping (ui (run (mount clk) evs)) then 1 else 0.
Proof.
  enough (Hinv : single_flight_invariant (run (mount clk) evs)) by apply Hinv.
  unfold run. generalize (mount_single_flight clk). generalize (mount clk).
  induction evs as [|ev evs IH]; intros sys Hinv; [exact Hinv|].
  apply IH, step_single_flight, Hinv.
Qed.

End AppFacts.
End AppFacts.
Import AppFacts.

(* ===================================================================== *)
(** * The program on concrete inputs *)
(* ===================================================================== *)

Module Runs.
Import App Samples.

#[local] Existing Instance integer_host.

Ltac not_blank :=
  let Hblank := fresh "Hblank" in
  intros Hblank; apply is_empty_trim_iff in Hblank; vm_compute in Hblank; discriminate.

(** [sendPrompt] on a network failure: the rejection comes out of it. *)
Lemma sendPrompt_propagates :
  transport_fails network_down
  /\ settle (sendPrompt (lit "list the files") (lit "/tmp") false) network_down
     = Throw failed_to_fetch
  /\ ~ returns (settle (sendPrompt (lit "list the files") (lit "/tmp") false) network_down).
Proof.
  split; [exact I|]. split; [reflexivity|].
  intros [data Hdata]. discriminate Hdata.
Qed.

(** A 500 answer: the three return a value, [sendPrompt] throws to
    [handleSendMessage]. *)
Lemma transport_failure_results_witness :
  transport_fails server_error
  /\ returns (settle (validateDirectory (lit "/tmp")) server_error)
  /\ returns (settle (validateRepository (lit "/tmp")) server_error)
  /\ returns (settle checkBackendHealth server_error)
  /\ exists e,
       settle (sendPrompt (lit "list the files") (lit "/tmp") false) server_error = Throw e
       /\ forall clk (st : State),
            let st' := exec (handleSendMessage_continue (Throw e) clk) st in
            messages st'
            = messages st ++ [plain_message (Date_now clk + 1) ERROR
                                (lit "Failed to process request: " ++ message e)
                                (toLocaleTimeString clk)]
            /\ error st' = Some (message e)
            /\ isTyping st' = false.
Proof.
  split; [reflexivity|].
  apply (@transport_failure_results integer_host (lit "list the files") (lit "/tmp")
           (lit "/tmp") false server_error).
  reflexivity.
Defined.

(** [handleDirectoryChange], called while a prompt is underway, sends its
    validation request all the same. *)
Lemma handleDirectoryChange_unguarded :
  isTyping busy = true
  /\ dispatched (handleDirectoryChange (Some (lit "/home/user/project")) busy)
     = Some (request (validateDirectory (lit "/home/user/project")))
  /\ handleDirectoryChange (Some (lit "/home/user/project")) busy <> (busy, None).
Proof.
  split; [reflexivity|]. split; [reflexivity|].
  intros Heq. apply (f_equal snd) in Heq. discriminate Heq.
Qed.

(** The same click, through the button: nothing runs. *)
Lemma change_gated_by_button_witness :
  isTyping busy = true
  /\ click_change (Some (lit "/home/user/project")) busy = (busy, None)
  /\ dispatched (click_change (Some (lit "/home/user/project")) busy) = None
  /\ step {| ui := busy; in_flight := [] |} (ClickChange (Some (lit "/home/user/project")))
     = {| ui := busy; in_flight := [] |}
  /\ step {| ui := busy; in_flight := [] |} (Submit later) = {| ui := busy; in_flight := [] |}.
Proof.
  split; [reflexivity|].
  apply (@change_gated_by_button integer_host {| ui := busy; in_flight := [] |}
           (Some (lit "/home/user/project")) later).
  reflexivity.
Defined.

(** Submitting two spaces and a tab. *)
Lemma submit_noop_witness :
  (whitespace_only (inputMessage blank) \/ isTyping blank = true)
  /\ handleSendMessage noon blank = (blank, None)
  /\ messages (fst (handleSendMessage noon blank)) = messages blank
  /\ dispatched (handleSendMessage noon blank) = None.
Proof.
  assert (Hblank : whitespace_only (inputMessage blank) \/ isTyping blank = true).
  { left. repeat constructor. }
  split; [exact Hblank|].
  apply (@submit_noop integer_host noon blank). exact Hblank.
Defined.

Lemma chat_success_is_success : success_result chat_success.
Proof.
  split; [eexists; reflexivity|]. split; [reflexivity|].
  constructor; [split; discriminate | constructor].
Qed.

(** A prompt answered with [chat_success]. *)
Lemma submit_success_witness :
  (~ whitespace_only (inputMessage typed))
  /\ isTyping typed = false
  /\ settle (sendPrompt (inputMessage typed) (workingDirectory typed) (verboseMode typed))
       (answered chat_success) = Normal chat_success
  /\ success_result chat_success
  /\ called (handleSendMessage noon typed)
     = Some (sendPrompt (inputMessage typed) (workingDirectory typed) (verboseMode typed))
  /\ exists userMessage aiMessage,
       messages (complete (answered chat_success) later (handleSendMessage noon typed))
       = messages typed ++ [userMessage; aiMessage]
       /\ List.length
            (messages (complete (answered chat_success) later (handleSendMessage noon typed)))
          = List.length (messages typed) + 2
       /\ type userMessage = USER
       /\ content userMessage = VStr (inputMessage typed)
       /\ type aiMessage = AI
       /\ content aiMessage = property chat_success (lit "finalResponse")
       /\ functionCalls aiMessage
          = Some (function_names (property chat_success (lit "functionCalls")))
       /\ tokenCount aiMessage = Some (property chat_success (lit "tokenCounts"))
       /\ iterations aiMessage = Some (property chat_success (lit "totalIterations"))
       /\ repositoryInfo aiMessage = Some (property chat_success (lit "repositoryInfo"))
       /\ isTyping (complete (answered chat_success) later (handleSendMessage noon typed))
          = false.
Proof.
  assert (Hnonblank : ~ whitespace_only (inputMessage typed)) by not_blank.
  split; [exact Hnonblank|]. split; [reflexivity|]. split; [reflexivity|].
  split; [exact chat_success_is_success|].
  apply (@submit_success integer_host noon later typed (answered chat_success) chat_success).
  - exact Hnonblank.
  - reflexivity.
  - reflexivity.
  - exact chat_success_is_success.
Defined.

(** A prompt answered with [{success: false, error: "boom"}]. *)
Lemma submit_value_level_failure_witness :
  (~ whitespace_only (inputMessage typed))
  /\ isTyping typed = false
  /\ lit "boom" <> []
  /\ settle (sendPrompt (inputMessage typed) (workingDirectory typed) (verboseMode typed))
       (answered (failure_result (lit "boom"))) = Normal (failure_result (lit "boom"))
  /\ exists userMessage errorMessage,
       messages (complete (answered (failure_result (lit "boom"))) later
                   (handleSendMessage noon typed))
       = messages typed ++ [userMessage; errorMessage]
       /\ List.length
            (messages (complete (answered (failure_result (lit "boom"))) later
                         (handleSendMessage noon typed)))
          = List.length (messages typed) + 2
       /\ type userMessage = USER
       /\ content userMessage = VStr (inputMessage typed)
       /\ type errorMessage = ERROR
       /\ content errorMessage = VStr (lit "Error: " ++ lit "boom")
       /\ occurs_in (lit "boom") (lit "Error: " ++ lit "boom")
       /\ isTyping (complete (answered (failure_result (lit "boom"))) later
                      (handleSendMessage noon typed)) = false.
Proof.
  assert (Hnonblank : ~ whitespace_only (inputMessage typed)) by not_blank.
  assert (Hboom : lit "boom" <> []) by (vm_compute; discriminate).
  split; [exact Hnonblank|]. split; [reflexivity|]. split; [exact Hboom|].
  split; [reflexivity|].
  apply (@submit_value_level_failure integer_host noon later typed
           (answered (failure_result (lit "boom"))) (lit "boom")).
  - exact Hnonblank.
  - reflexivity.
  - exact Hboom.
  - reflexivity.
Defined.

(** The routing of a GitHub URL. *)
Lemma changeTarget_routes_witness :
  lit "https://github.com/foo/bar" <> []
  /\ (isGitUrl (lit "https://github.com/foo/bar") = true
      <-> git_reference (lit "https://github.com/foo/bar"))
  /\ (git_reference (lit "https://github.com/foo/bar") ->
      called (handleDirectoryChange (Some (lit "https://github.com/foo/bar")) fresh)
      = Some (validateRepository (lit "https://github.com/foo/bar"))
      /\ dispatched (handleDirectoryChange (Some (lit "https://github.com/foo/bar")) fresh)
         <> Some (request (validateDirectory (lit "https://github.com/foo/bar"))))
  /\ (~ git_reference (lit "https://github.com/foo/bar") ->
      called (handleDirectoryChange (Some (lit "https://github.com/foo/bar")) fresh)
      = Some (validateDirectory (lit "https://github.com/foo/bar"))
      /\ dispatched (handleDirectoryChange (Some (lit "https://github.com/foo/bar")) fresh)
         <> Some (request (validateRepository (lit "https://github.com/foo/bar")))).
Proof.
  assert (Hnonempty : lit "https://github.com/foo/bar" <> []) by (vm_compute; discriminate).
  split; [exact Hnonempty|].
  apply (@changeTarget_routes integer_host (lit "https://github.com/foo/bar") fresh).
  exact Hnonempty.
Defined.

(** The two examples of the specification. *)
Example changeTarget_github :
  git_reference (lit "https://github.com/foo/bar")
  /\ called (handleDirectoryChange (Some (lit "https://github.com/foo/bar")) fresh)
     = Some (validateRepository (lit "https://github.com/foo/bar")).
Proof. split; [apply isGitUrl_spec|]; reflexivity. Qed.

Example changeTarget_local :
  ~ git_reference (lit "/home/user/project")
  /\ called (handleDirectoryChange (Some (lit "/home/user/project")) fresh)
     = Some (validateDirectory (lit "/home/user/project")).
Proof. split; [apply isGitUrl_false|]; reflexivity. Qed.

(** A prompt whose request is rejected, and a validation answered with
    [null]: idle again after both. *)
Lemma returns_to_idle_witness :
  snd (handleSendMessage noon typed) = Some chat_underway
  /\ isTyping (resume chat_underway (Throw failed_to_fetch) later busy) = false
  /\ snd (handleDirectoryChange (Some (lit "/home/user/project")) fresh)
     = Some validation_underway
  /\ isTyping (resume validation_underway (Normal VNull) later
                 (fst (handleDirectoryChange (Some (lit "/home/user/project")) fresh)))
     = false.
Proof.
  split; [reflexivity|]. split.
  - apply (proj1 (@returns_to_idle integer_host) noon typed chat_underway eq_refl
             (Throw failed_to_fetch) later busy later (lit "again")).
  - split; [reflexivity|].
    apply (proj2 (@returns_to_idle integer_host) (Some (lit "/home/user/project")) fresh
             validation_underway eq_refl (Normal VNull) later
             (fst (handleDirectoryChange (Some (lit "/home/user/project")) fresh))
             later (lit "again")).
Defined.

(** ** Whole sessions *)

Example session_single_flight :
  pending_requests (run (mount noon) session)
  = [request (sendPrompt (lit "list the files") (lit "https://github.com/microsoft/calculator")
                false)]
  /\ map type (messages (ui (run (mount noon) session))) = [AI; USER]
  /\ isTyping (ui (run (mount noon) session)) = true.
Proof. repeat split. Qed.

Example session_answered :
  let final := run (mount noon) (session ++ [Settled 0 (answered chat_success) later]) in
  map type (messages (ui final)) = [AI; USER; AI]
  /\ map content (messages (ui final))
     = [VStr greeting; VStr (lit "list the files"); VStr (lit "There are 3 files.")]
  /\ map functionCalls (messages (ui final))
     = [None; None; Some (VArr [VStr (lit "get_files_info")])]
  /\ isTyping (ui final) = false
  /\ error (ui final) = None
  /\ pending_requests final = [].
Proof. repeat split. Qed.

(** The network goes down while the prompt is underway: an ['error'] message
    and the banner, and the controller is idle again. *)
Example session_network_down :
  let final := run (mount noon) (session ++ [Settled 0 network_down later]) in
  map type (messages (ui final)) = [AI; USER; ERROR]
  /\ nth_error (map content (messages (ui final))) 2
     = Some (VStr (lit "Failed to process request: Failed to fetch"))
  /\ error (ui final) = Some (lit "Failed to fetch")
  /\ isTyping (ui final) = false.
Proof. repeat split. Qed.

(** A health check that fails while a prompt is underway sets the banner and
    leaves the pending flag alone. *)
Example session_health_overlaps :
  let final := run (mount noon) (session ++ [Tick; Settled 1 network_down later]) in
  backendStatus (ui final) = {| healthy := VBool false; checking := false |}
  /\ error (ui final) = Some backend_unavailable
  /\ isTyping (ui final) = true
  /\ map type (messages (ui final)) = [AI; USER].
Proof. repeat split. Qed.

(** A target is validated and replaced. *)
Example session_change_target :
  let final :=
    run (mount noon)
      [ClickChange (Some (lit "/home/user/project"));
       Settled 1 (answered (VObj [(lit "valid", VBool true); (lit "fileCount", VNum 12%Z);
                                  (lit "dirCount", VNum 3%Z)])) later] in
  workingDirectory (ui final) = lit "/home/user/project"
  /\ map type (messages (ui final)) = [AI; SYSTEM]
  /\ nth_error (map content (messages (ui final))) 1
     = Some (VStr (white_check_mark ++ lit " Working directory changed to: /home/user/project"
                   ++ newline ++ file_folder ++ lit " 12 files, 3 directories found"))
  /\ isTyping (ui final) = false.
Proof. repeat split. Qed.

(** A body with a truthy [success] whose [functionCalls] is no list is not a
    success result: reading the names throws, and the [catch] reports it. *)
Example malformed_success :
  let body := VObj [(lit "success", VBool true); (lit "functionCalls", VStr (lit "none"))] in
  let final := complete (answered body) later (handleSendMessage noon typed) in
  map type (messages final) = [AI; USER; ERROR]
  /\ error final = Some (lit "map is not a function")
  /\ isTyping final = false.
Proof. repeat split. Qed.

End Runs.

(* ===================================================================== *)
(** * Further properties *)
(* ===================================================================== *)

Module Coverage.
Import App.
Section Coverage.
Context {H : Host}.

(** ** The API client *)

Lemma sendPrompt_settles (prompt workingDirectory : jsstring) (verbose : bool)
    (r : fetched) (data : value) :
  settle (sendPrompt prompt workingDirectory verbose) r = Normal data <-> json_ok r = Some data.
Proof.
  unfold json_ok. destruct r as [response|e]; [|split; discriminate].
  destruct (ok response) eqn:Hok.
  - destruct (json response) as [body|e] eqn:Hjson.
    + rewrite (sendPrompt_ok prompt workingDirectory verbose response Hok Hjson).
      split; congruence.
    + cbn [settle sendPrompt Js.bind try_catch]. rewrite Hjson. split; discriminate.
  - destruct (@sendPrompt_throws _ prompt workingDirectory verbose (Normal response) Hok)
      as [e He].
    rewrite He. split; discriminate.
Qed.

(** X1. [sendPrompt] returns a value exactly when the request was answered
    with a 2xx status and a body that parses as JSON, and the value is then
    that body, whatever it says; in every other case (a rejected request, a
    status outside 2xx, a body that is not JSON, even with a 2xx status) it
    throws. *)
Theorem sendPrompt_returns_iff (prompt workingDirectory : jsstring) (verbose : bool)
    (r : fetched) (data : value) :
  (settle (sendPrompt prompt workingDirectory verbose) r = Normal data
   <-> json_ok r = Some data)
  /\ (json_ok r = None -> throws (settle (sendPrompt prompt workingDirectory verbose) r)).
Proof.
  split; [apply sendPrompt_settles|].
  intros Hnone.
  destruct (settle (sendPrompt prompt workingDirectory verbose) r) as [body|e] eqn:Hsettled.
  - apply sendPrompt_settles in Hsettled. congruence.
  - exists e. reflexivity.
Qed.

Lemma get_readable (v : value) (key : jsstring) :
  readable v -> get v key = Normal (property v key).
Proof.
  intros [Hnull Hundef]. unfold property.
  destruct v; try congruence; cbn [get]; try reflexivity.
  destruct (own_property key props); reflexivity.
Qed.

(** What [sendPrompt] throws on an answer outside 2xx whose body is JSON:
    an [Error] whose message is the body's [error] when that is truthy, and
    else is made from the status. *)
Lemma sendPrompt_http_error (prompt workingDirectory : jsstring) (verbose : bool)
    (response : Response) (data : value) :
  ok response = false -> json response = Normal data -> readable data ->
  settle (sendPrompt prompt workingDirectory verbose) (Normal response)
  = if truthy (property data (lit "error"))
    then match to_string (property data (lit "error")) with
         | Normal msg => Throw (Error msg)
         | Throw e => Throw e
         end
    else Throw (Error (status_message response)).
Proof.
  intros Hok Hjson Hread. cbn [settle sendPrompt Js.bind]. rewrite Hjson. cbn [Js.bind].
  rewrite Hok, (get_readable (lit "error") Hread). cbn [negb Js.bind]. unfold or_else.
  destruct (truthy (property data (lit "error"))).
  - destruct (to_string (property data (lit "error"))); reflexivity.
  - reflexivity.
Qed.

(** ** The health check *)

Lemma checkHealth_resumed (r : fetched) (st : State) :
  exec (checkHealth_continue (settle checkBackendHealth r)) st
  = (if health_answer r then (fun st' => st') else setError (Some backend_unavailable))
      (setBackendStatus {| healthy := VBool (health_answer r); checking := false |} st).
Proof.
  unfold health_answer. destruct r as [response|e]; [|reflexivity].
  cbn [settle checkBackendHealth Js.bind try_catch].
  destruct (json response) as [data|e]; [|reflexivity].
  destruct (ok response); reflexivity.
Qed.

(** X2. A health check, however its request comes out, leaves
    [backendStatus] at [{healthy: b, checking: false}], where [b] tells
    whether the endpoint answered with a 2xx status and a JSON body.  When
    [b] is false it puts the fixed "backend unavailable" text in the banner;
    when [b] is true it leaves the banner as it was, an earlier error
    included.  It touches nothing else: not the history, not the pending
    flag, not the target, not the input. *)
Theorem health_check_outcome (r : fetched) (clk : clock) (st : State) :
  backendStatus (complete r clk (checkHealth st))
  = {| healthy := VBool (health_answer r); checking := false |}
  /\ error (complete r clk (checkHealth st))
     = (if health_answer r then error st else Some backend_unavailable)
  /\ messages (complete r clk (checkHealth st)) = messages st
  /\ isTyping (complete r clk (checkHealth st)) = isTyping st
  /\ workingDirectory (complete r clk (checkHealth st)) = workingDirectory st
  /\ inputMessage (complete r clk (checkHealth st)) = inputMessage st
  /\ verboseMode (complete r clk (checkHealth st)) = verboseMode st
  /\ showCover (complete r clk (checkHealth st)) = showCover st.
Proof.
  unfold complete. cbn [checkHealth snd fst awaiting resume].
  rewrite checkHealth_resumed. destruct (health_answer r); repeat split.
Qed.

(** ** A prompt whose request fails *)

(** X3. When the chat endpoint answers outside 2xx with a JSON body whose
    [error] is truthy, that error, as a string, is what the user sees: the
    history grows by the user's message and an ['error'] message "Failed to
    process request: " followed by it, the banner shows it, and the
    controller is idle. *)
Theorem server_error_surfaces (clk clk' : clock) (st : State) (response : Response)
    (data : value) (msg : jsstring) :
  ~ whitespace_only (inputMessage st) ->
  isTyping st = false ->
  ok response = false ->
  json response = Normal data ->
  readable data ->
  truthy (property data (lit "error")) = true ->
  to_string (property data (lit "error")) = Normal msg ->
  messages (complete (Normal response) clk' (handleSendMessage clk st))
  = messages st ++ [userMessage_of clk st; failed_request_message clk' msg]
  /\ error (complete (Normal response) clk' (handleSendMessage clk st)) = Some msg
  /\ isTyping (complete (Normal response) clk' (handleSendMessage clk st)) = false.
Proof.
  intros Hnonblank Hidle Hok Hjson Hread Htruthy Hmsg.
  rewrite handleSendMessage_started by assumption.
  unfold complete. cbn [snd fst awaiting resume].
  rewrite (sendPrompt_http_error _ _ _ response Hok Hjson Hread), Htruthy, Hmsg.
  rewrite handleSendMessage_continue_thrown.
  cbn [messages setIsTyping setMessages setInputMessage setError isTyping error Error message].
  rewrite <- app_assoc. repeat split.
Qed.

(** X4. When the chat endpoint answers outside 2xx with a JSON body that has
    no truthy [error] (none at all, [null], [false], [0], the empty string),
    the user sees the status instead: the ['error'] message and the banner
    read "HTTP error! status: " followed by the status code in decimal. *)
Theorem status_error_surfaces (clk clk' : clock) (st : State) (response : Response)
    (data : value) :
  ~ whitespace_only (inputMessage st) ->
  isTyping st = false ->
  ok response = false ->
  json response = Normal data ->
  readable data ->
  truthy (property data (lit "error")) = false ->
  messages (complete (Normal response) clk' (handleSendMessage clk st))
  = messages st
    ++ [userMessage_of clk st; failed_request_message clk' (status_message response)]
  /\ error (complete (Normal response) clk' (handleSendMessage clk st))
     = Some (lit "HTTP error! status: " ++ of_N (status response))
  /\ isTyping (complete (Normal response) clk' (handleSendMessage clk st)) = false.
Proof.
  intros Hnonblank Hidle Hok Hjson Hread Hfalsy.
  rewrite handleSendMessage_started by assumption.
  unfold complete. cbn [snd fst awaiting resume].
  rewrite (sendPrompt_http_error _ _ _ response Hok Hjson Hread), Hfalsy.
  rewrite handleSendMessage_continue_thrown.
  cbn [messages setIsTyping setMessages setInputMessage setError isTyping error Error message].
  rewrite <- app_assoc. repeat split.
Qed.

(** ** State variables a piece of handler code leaves alone *)

Section Unchanged.
Context {B : Type} (proj : State -> B).

Lemma unchanged_ret {A} (a : A) : unchanged proj (ret a).
Proof. intros st. reflexivity. Qed.

Lemma unchanged_eval {A} (c : completion A) : unchanged proj (eval c).
Proof. intros st. reflexivity. Qed.

Lemma unchanged_update (f : State -> State) :
  (forall st, proj (f st) = proj st) -> unchanged proj (update f).
Proof. intros Hf st. apply Hf. Qed.

Lemma unchanged_abind {A C} (c : action A) (k : A -> action C) :
  unchanged proj c -> (forall a, unchanged proj (k a)) -> unchanged proj (abind c k).
Proof.
  intros Hc Hk st. unfold abind. specialize (Hc st).
  destruct (c st) as [[a|e] st']; simpl in *.
  - rewrite Hk. exact Hc.
  - exact Hc.
Qed.

(** After a [try] block, [catch] and [finally] code that leave [proj] alone
    leave it as the [try] block left it. *)
Lemma try_catch_finally_reads (body : action unit) (handler : exn -> action unit)
    (final : action unit) (st : State) :
  (forall e, unchanged proj (handler e)) -> unchanged proj final ->
  proj (exec (try_catch_finally body handler final) st) = proj (snd (body st)).
Proof.
  intros Hh Hf. unfold exec, try_catch_finally.
  destruct (body st) as [[[]|e] st1]; cbn [snd].
  - specialize (Hf st1). destruct (final st1) as [[[]|e] st2]; exact Hf.
  - specialize (Hh e st1). destruct (handler e st1) as [caught st2]. cbn [snd] in Hh.
    specialize (Hf st2). destruct (final st2) as [[[]|e'] st3]; cbn [snd] in *; congruence.
Qed.

Lemma unchanged_try_catch_finally (body : action unit) (handler : exn -> action unit)
    (final : action unit) :
  unchanged proj body -> (forall e, unchanged proj (handler e)) -> unchanged proj final ->
  unchanged proj (try_catch_finally body handler final).
Proof.
  intros Hb Hh Hf st.
  change (snd (try_catch_finally body handler final st))
    with (exec (try_catch_finally body handler final) st).
  rewrite try_catch_finally_reads by assumption. apply Hb.
Qed.

End Unchanged.

(** Decompose handler code along its binds and branches; what is left are
    the setters, which the caller closes. *)
Ltac frame :=
  repeat first
    [ apply unchanged_try_catch_finally
    | apply unchanged_abind; [|intros ?]
    | apply unchanged_eval
    | apply unchanged_ret
    | apply unchanged_update; intros ?; reflexivity
    | match goal with
      | |- unchanged _ (if ?b then _ else _) => destruct b
      | |- forall _, _ => intros ?
      end ].

(** The rest of [handleSendMessage] changes [messages], [error] and
    [isTyping] only. *)
Lemma handleSendMessage_continue_frame (awaited : completion value) (clk : clock) :
  unchanged workingDirectory (handleSendMessage_continue awaited clk)
  /\ unchanged backendStatus (handleSendMessage_continue awaited clk)
  /\ unchanged inputMessage (handleSendMessage_continue awaited clk)
  /\ unchanged verboseMode (handleSendMessage_continue awaited clk)
  /\ unchanged showCover (handleSendMessage_continue awaited clk).
Proof. unfold handleSendMessage_continue. repeat split; frame. Qed.

(** The rest of [handleDirectoryChange] changes [workingDirectory],
    [messages], [error] and [isTyping] only. *)
Lemma handleDirectoryChange_repository_frame (newPath : jsstring)
    (awaited : completion value) (clk : clock) :
  unchanged backendStatus (handleDirectoryChange_repository newPath awaited clk)
  /\ unchanged inputMessage (handleDirectoryChange_repository newPath awaited clk)
  /\ unchanged verboseMode (handleDirectoryChange_repository newPath awaited clk)
  /\ unchanged showCover (handleDirectoryChange_repository newPath awaited clk).
Proof. unfold handleDirectoryChange_repository. repeat split; frame. Qed.

Lemma handleDirectoryChange_directory_frame (newPath : jsstring)
    (awaited : completion value) (clk : clock) :
  unchanged backendStatus (handleDirectoryChange_directory newPath awaited clk)
  /\ unchanged inputMessage (handleDirectoryChange_directory newPath awaited clk)
  /\ unchanged verboseMode (handleDirectoryChange_directory newPath awaited clk)
  /\ unchanged showCover (handleDirectoryChange_directory newPath awaited clk).
Proof. unfold handleDirectoryChange_directory. repeat split; frame. Qed.

(** ** A change of target *)

Lemma abind_eval {A C} (c : completion A) (k : A -> action C) (st : State) :
  abind (eval c) k st
  = match c with
    | Normal a => k a st
    | Throw e => (Throw e, st)
    end.
Proof. unfold abind, eval. destruct c; reflexivity. Qed.

Lemma abind_update {C} (f : State -> State) (k : unit -> action C) (st : State) :
  abind (update f) k st = k tt (f st).
Proof. reflexivity. Qed.

(** X5. The target is replaced exactly when the validation came back with a
    truthy [valid], and then by the text that was entered, unchanged.  This
    holds however the rest goes: if the confirmation message cannot be built,
    the target has been replaced all the same; and without a truthy [valid]
    (a rejection by the server, a failed request, a body that is [null]) the
    target stays as it was. *)
Theorem target_replaced_iff_valid (newPath : jsstring) (awaited : completion value)
    (clk : clock) (st : State) :
  workingDirectory (exec (handleDirectoryChange_repository newPath awaited clk) st)
  = (if validated awaited then newPath else workingDirectory st)
  /\ workingDirectory (exec (handleDirectoryChange_directory newPath awaited clk) st)
     = (if validated awaited then newPath else workingDirectory st).
Proof.
  unfold validated. split.
  - unfold handleDirectoryChange_repository.
    rewrite try_catch_finally_reads by frame.
    rewrite abind_eval. destruct awaited as [validation|e]; [|reflexivity].
    rewrite abind_eval. destruct (get validation (lit "valid")) as [valid|e]; [|reflexivity].
    destruct (truthy valid).
    + rewrite abind_update.
      match goal with
      | |- workingDirectory (snd (?k (setWorkingDirectory _ _))) = _ =>
          assert (Hrest : unchanged workingDirectory k) by frame
      end.
      rewrite Hrest. reflexivity.
    + match goal with
      | |- workingDirectory (snd (?k st)) = _ =>
          assert (Hrest : unchanged workingDirectory k) by frame
      end.
      apply Hrest.
  - unfold handleDirectoryChange_directory.
    rewrite try_catch_finally_reads by frame.
    rewrite abind_eval. destruct awaited as [validation|e]; [|reflexivity].
    rewrite abind_eval. destruct (get validation (lit "valid")) as [valid|e]; [|reflexivity].
    destruct (truthy valid).
    + rewrite abind_update.
      match goal with
      | |- workingDirectory (snd (?k (setWorkingDirectory _ _))) = _ =>
          assert (Hrest : unchanged workingDirectory k) by frame
      end.
      rewrite Hrest. reflexivity.
    + match goal with
      | |- workingDirectory (snd (?k st)) = _ =>
          assert (Hrest : unchanged workingDirectory k) by frame
      end.
      apply Hrest.
Qed.

Lemma parsed_settle (target : jsstring) (r : fetched) (validation : value) :
  parsed r = Some validation ->
  settle (validateDirectory target) r = Normal validation
  /\ settle (validateRepository target) r = Normal validation.
Proof.
  intros Hparsed. destruct (validate_settle target r) as [Hdir Hrepo].
  rewrite Hrepo, Hdir. unfold parsed in Hparsed.
  destruct r as [response|e]; [|discriminate].
  destruct (json response); [|discriminate].
  injection Hparsed as ->. split; reflexivity.
Qed.

Lemma thrown_settle (target : jsstring) (r : fetched) (e : exn) :
  thrown_by r = Some e ->
  settle (validateDirectory target) r = Normal (invalid e)
  /\ settle (validateRepository target) r = Normal (invalid e).
Proof.
  intros Hthrown. destruct (validate_settle target r) as [Hdir Hrepo].
  rewrite Hrepo, Hdir. unfold thrown_by in Hthrown.
  destruct r as [response|e']; [destruct (json response); [discriminate|]|];
    injection Hthrown as ->; split; reflexivity.
Qed.

(** Past the dialog, [handleDirectoryChange] up to its [await]. *)
Lemma handleDirectoryChange_started (newPath : jsstring) (st : State) :
  newPath <> [] ->
  handleDirectoryChange (Some newPath) st
  = (setIsTyping true st,
     if isGitUrl newPath
     then Some {| awaiting := validateRepository newPath;
                  resume := fun awaited clk =>
                    exec (handleDirectoryChange_repository newPath awaited clk) |}
     else Some {| awaiting := validateDirectory newPath;
                  resume := fun awaited clk =>
                    exec (handleDirectoryChange_directory newPath awaited clk) |}).
Proof.
  intros Hnonempty. destruct newPath as [|c rest]; [congruence|].
  unfold handleDirectoryChange. destruct (isGitUrl (c :: rest)); reflexivity.
Qed.

(** The rest of the handler on a validation whose [valid] is falsy. *)
Lemma validation_rejected_rest (newPath : jsstring) (validation : value) (text : jsstring)
    (clk : clock) (st : State) :
  readable validation ->
  truthy (property validation (lit "valid")) = false ->
  to_string (property validation (lit "error")) = Normal text ->
  (if isGitUrl newPath
   then exec (handleDirectoryChange_repository newPath (Normal validation) clk) st
   else exec (handleDirectoryChange_directory newPath (Normal validation) clk) st)
  = setIsTyping false
      (setMessages (fun prev => prev ++ [validation_failed_message newPath clk text])
         (setError (Some (validation_failed_banner newPath text)) st)).
Proof.
  intros Hread Hvalid Htext.
  unfold validation_failed_message, validation_failed_banner.
  destruct (isGitUrl newPath).
  - unfold handleDirectoryChange_repository, exec, try_catch_finally.
    repeat (first [ rewrite abind_eval | rewrite abind_update
                  | rewrite (get_readable _ Hread) | rewrite Hvalid | rewrite Htext ];
            cbv beta iota).
    reflexivity.
  - unfold handleDirectoryChange_directory, exec, try_catch_finally.
    repeat (first [ rewrite abind_eval | rewrite abind_update
                  | rewrite (get_readable _ Hread) | rewrite Hvalid | rewrite Htext ];
            cbv beta iota).
    reflexivity.
Qed.

(** X6. A validation that comes back with a falsy [valid] leaves the target
    as it was, puts "Repository validation failed: " or "Invalid directory: "
    followed by the answer's [error], as a string, in the banner, appends one
    ['error'] message saying the same, and clears the pending flag.  An
    answer without [error] reads "undefined" there. *)
Theorem validation_rejected (newPath : jsstring) (r : fetched) (validation : value)
    (text : jsstring) (clk : clock) (st : State) :
  newPath <> [] ->
  parsed r = Some validation ->
  readable validation ->
  truthy (property validation (lit "valid")) = false ->
  to_string (property validation (lit "error")) = Normal text ->
  workingDirectory (complete r clk (handleDirectoryChange (Some newPath) st))
  = workingDirectory st
  /\ error (complete r clk (handleDirectoryChange (Some newPath) st))
     = Some (validation_failed_banner newPath text)
  /\ messages (complete r clk (handleDirectoryChange (Some newPath) st))
     = messages st ++ [validation_failed_message newPath clk text]
  /\ isTyping (complete r clk (handleDirectoryChange (Some newPath) st)) = false.
Proof.
  intros Hnonempty Hparsed Hread Hvalid Htext.
  rewrite handleDirectoryChange_started by assumption.
  pose proof (validation_rejected_rest newPath clk (setIsTyping true st) Hread Hvalid Htext)
    as Hrest.
  destruct (parsed_settle newPath r Hparsed) as [Hdir Hrepo].
  unfold complete. destruct (isGitUrl newPath); cbn [snd fst awaiting resume];
    [rewrite Hrepo | rewrite Hdir]; rewrite Hrest; repeat split.
Qed.

(** X7. A validation request that fails in transport (the request is
    rejected, or the answer is not JSON) is reported like a rejection by the
    server, with the thrown error's message as the reason: the [catch] of
    [handleDirectoryChange] is not what handles it. *)
Theorem validation_transport_failure (newPath : jsstring) (r : fetched) (e : exn)
    (clk : clock) (st : State) :
  newPath <> [] ->
  thrown_by r = Some e ->
  workingDirectory (complete r clk (handleDirectoryChange (Some newPath) st))
  = workingDirectory st
  /\ error (complete r clk (handleDirectoryChange (Some newPath) st))
     = Some (validation_failed_banner newPath (message e))
  /\ messages (complete r clk (handleDirectoryChange (Some newPath) st))
     = messages st ++ [validation_failed_message newPath clk (message e)]
  /\ isTyping (complete r clk (handleDirectoryChange (Some newPath) st)) = false.
Proof.
  intros Hnonempty Hthrown.
  rewrite handleDirectoryChange_started by assumption.
  assert (Hread : readable (invalid e)) by (split; discriminate).
  pose proof (@validation_rejected_rest newPath (invalid e) (message e) clk
                (setIsTyping true st) Hread eq_refl eq_refl) as Hrest.
  destruct (thrown_settle newPath r Hthrown) as [Hdir Hrepo].
  unfold complete. destruct (isGitUrl newPath); cbn [snd fst awaiting resume];
    [rewrite Hrepo | rewrite Hdir]; rewrite Hrest; repeat split.
Qed.

Lemma shown_or_to_string (v : value) (default text : jsstring) :
  shown_or v default text -> to_string_or v default = Normal text.
Proof.
  unfold to_string_or. intros [[-> Htext] | [-> ->]]; [exact Htext | reflexivity].
Qed.

Lemma abind_assoc {A B C} (c : action A) (k : A -> action B) (k' : B -> action C)
    (st : State) :
  abind (abind c k) k' st = abind c (fun a => abind (k a) k') st.
Proof.
  unfold abind. destruct (c st) as [[a|e] st1]; [|reflexivity].
  destruct (k a st1) as [[b|e] st2]; reflexivity.
Qed.

Lemma abind_ret {A C} (a : A) (k : A -> action C) (st : State) :
  abind (ret a) k st = k a st.
Proof. reflexivity. Qed.

Ltac run_handler Hread :=
  unfold exec, try_catch_finally;
  repeat (first [ rewrite abind_assoc | rewrite abind_eval | rewrite abind_update
                | rewrite abind_ret
                | rewrite (get_readable _ Hread)
                | match goal with
                  | Heq : truthy _ = _ |- _ => rewrite Heq
                  | Heq : strict_eq_string _ _ = _ |- _ => rewrite Heq
                  | Heq : to_string _ = Normal _ |- _ => rewrite Heq
                  | Hshown : shown_or _ _ _ |- _ => rewrite (shown_or_to_string Hshown)
                  end ];
          cbv beta iota).

(** X8. A URL that [validateRepository] accepts becomes the target, the
    banner is cleared, and one ['system'] message confirms it with the
    branch, the numbers of code files and of all files, the size and the
    last commit, each as the answer gives it, or "main", "0", "0", "0" and
    "Unknown" where the answer has none. *)
Theorem repository_confirmed (newPath : jsstring) (r : fetched) (validation : value)
    (branch code total size commit : jsstring) (clk : clock) (st : State) :
  newPath <> [] ->
  isGitUrl newPath = true ->
  parsed r = Some validation ->
  readable validation ->
  truthy (property validation (lit "valid")) = true ->
  shown_or (property validation (lit "branch")) (lit "main") branch ->
  shown_or (property validation (lit "code_files")) (lit "0") code ->
  shown_or (property validation (lit "total_files")) (lit "0") total ->
  shown_or (property validation (lit "size_mb")) (lit "0") size ->
  shown_or (property validation (lit "last_commit")) (lit "Unknown") commit ->
  complete r clk (handleDirectoryChange (Some newPath) st)
  = confirmed newPath (repository_connected_text newPath branch code total size commit)
      clk (setIsTyping true st).
Proof.
  intros Hnonempty Hgit Hparsed Hread Hvalid Hbranch Hcode Htotal Hsize Hcommit.
  rewrite handleDirectoryChange_started by assumption. rewrite Hgit.
  destruct (parsed_settle newPath r Hparsed) as [_ Hrepo].
  unfold complete. cbn [snd fst awaiting resume]. rewrite Hrepo.
  unfold handleDirectoryChange_repository. run_handler Hread. reflexivity.
Qed.

(** X9. A path that [validateDirectory] accepts becomes the target, the
    banner is cleared, and one ['system'] message confirms it with the
    numbers of files and directories as the answer gives them (there is no
    default here: a number the answer lacks reads "undefined"). *)
Theorem directory_confirmed (newPath : jsstring) (r : fetched) (validation : value)
    (files dirs : jsstring) (clk : clock) (st : State) :
  newPath <> [] ->
  isGitUrl newPath = false ->
  parsed r = Some validation ->
  readable validation ->
  truthy (property validation (lit "valid")) = true ->
  strict_eq_string (property validation (lit "type")) (lit "git_repository") = false ->
  to_string (property validation (lit "fileCount")) = Normal files ->
  to_string (property validation (lit "dirCount")) = Normal dirs ->
  complete r clk (handleDirectoryChange (Some newPath) st)
  = confirmed newPath (directory_changed_text newPath files dirs) clk (setIsTyping true st).
Proof.
  intros Hnonempty Hlocal Hparsed Hread Hvalid Htype Hfiles Hdirs.
  rewrite handleDirectoryChange_started by assumption. rewrite Hlocal.
  destruct (parsed_settle newPath r Hparsed) as [Hdir _].
  unfold complete. cbn [snd fst awaiting resume]. rewrite Hdir.
  unfold handleDirectoryChange_directory. run_handler Hread. reflexivity.
Qed.

(** X10. A local path whose validation says [type: 'git_repository'] is
    confirmed as a Git repository, with the numbers of code files and of all
    files, "0" where the answer has none. *)
Theorem local_repository_confirmed (newPath : jsstring) (r : fetched) (validation : value)
    (code total : jsstring) (clk : clock) (st : State) :
  newPath <> [] ->
  isGitUrl newPath = false ->
  parsed r = Some validation ->
  readable validation ->
  truthy (property validation (lit "valid")) = true ->
  strict_eq_string (property validation (lit "type")) (lit "git_repository") = true ->
  shown_or (property validation (lit "code_files")) (lit "0") code ->
  shown_or (property validation (lit "total_files")) (lit "0") total ->
  complete r clk (handleDirectoryChange (Some newPath) st)
  = confirmed newPath (local_repository_text newPath code total) clk (setIsTyping true st).
Proof.
  intros Hnonempty Hlocal Hparsed Hread Hvalid Htype Hcode Htotal.
  rewrite handleDirectoryChange_started by assumption. rewrite Hlocal.
  destruct (parsed_settle newPath r Hparsed) as [Hdir _].
  unfold complete. cbn [snd fst awaiting resume]. rewrite Hdir.
  unfold handleDirectoryChange_directory. run_handler Hread. reflexivity.
Qed.

(** ** The reply to a prompt *)

Lemma map_names_listed (entries names : list value) :
  map_completion (fun fc => get fc (lit "name")) entries = Normal names ->
  Forall (fun fc => fc <> VNull /\ fc <> VUndefined) entries.
Proof.
  revert names. induction entries as [|fc rest IH]; intros names Hmap; [constructor|].
  cbn [map_completion] in Hmap.
  destruct (get fc (lit "name")) as [fc_name|e] eqn:Hname; [|discriminate].
  cbn [Js.bind] in Hmap.
  destruct (map_completion _ rest) as [rest_names|e]; [|discriminate].
  constructor; [|exact (IH rest_names eq_refl)].
  destruct fc; cbn [get] in Hname; try discriminate; split; discriminate.
Qed.

Lemma optional_map_listed (calls names : value) :
  optional_map calls (fun fc => get fc (lit "name")) = Normal names -> calls_listed calls.
Proof.
  destruct calls as [| |b|n|s|entries|props]; cbn [optional_map calls_listed];
    try discriminate; try (intros _; exact I).
  destruct (map_completion _ entries) as [entry_names|e] eqn:Hmap; [|discriminate].
  intros _. exact (map_names_listed _ Hmap).
Qed.

(** The rest of the handler on a value-level failure. *)
Lemma handleSendMessage_continue_fallback (response : value) (text : jsstring)
    (clk : clock) (st : State) :
  readable response ->
  truthy (property response (lit "success")) = false ->
  shown_or (property response (lit "error")) (lit "Unknown error occurred") text ->
  exec (handleSendMessage_continue (Normal response) clk) st
  = setIsTyping false (setMessages (fun prev => prev ++ [failure_message clk text]) st).
Proof.
  intros Hread Hfalsy Hshown. unfold handleSendMessage_continue.
  run_handler Hread. reflexivity.
Qed.

(** X11. When [sendPrompt] returns a body whose [success] is falsy (the
    body of a 2xx answer that reports a failure, or that is no object at
    all), the history grows by the user's message and an ['error'] message
    "Error: " followed by the body's [error], or by "Unknown error occurred"
    when it has none; the banner, cleared on submission, stays cleared. *)
Theorem value_level_failure_reply (clk clk' : clock) (st : State) (r : fetched)
    (response : value) (text : jsstring) :
  ~ whitespace_only (inputMessage st) ->
  isTyping st = false ->
  json_ok r = Some response ->
  readable response ->
  truthy (property response (lit "success")) = false ->
  shown_or (property response (lit "error")) (lit "Unknown error occurred") text ->
  messages (complete r clk' (handleSendMessage clk st))
  = messages st ++ [userMessage_of clk st; failure_message clk' text]
  /\ error (complete r clk' (handleSendMessage clk st)) = None
  /\ isTyping (complete r clk' (handleSendMessage clk st)) = false.
Proof.
  intros Hnonblank Hidle Hok Hread Hfalsy Hshown.
  rewrite handleSendMessage_started by assumption.
  unfold complete. cbn [snd fst awaiting resume].
  apply (sendPrompt_settles (inputMessage st) (workingDirectory st) (verboseMode st)) in Hok.
  rewrite Hok, (handleSendMessage_continue_fallback _ _ Hread Hfalsy Hshown).
  cbn [messages setIsTyping setMessages setInputMessage setError isTyping error].
  rewrite <- app_assoc. repeat split.
Qed.

(** Whatever the awaited promise settles to, the rest of [handleSendMessage]
    appends one message: the assistant's on a success result, an ['error']
    message otherwise. *)
Lemma handleSendMessage_continue_reply (awaited : completion value) (clk : clock)
    (st : State) :
  exists reply,
    messages (exec (handleSendMessage_continue awaited clk) st) = messages st ++ [reply]
    /\ renderable reply
    /\ (type reply = AI \/ type reply = ERROR)
    /\ (type reply = AI <-> exists response, awaited = Normal response /\ success_result response).
Proof.
  assert (Hno : forall (reply : Message) (P : Prop), type reply = ERROR -> ~ P ->
                  (type reply = AI <-> P)).
  { intros reply P Herr HnP. rewrite Herr. split; [discriminate | contradiction]. }
  destruct awaited as [response|e].
  2:{ rewrite handleSendMessage_continue_thrown. eexists.
      split; [reflexivity|]. split; [left; reflexivity|]. split; [right; reflexivity|].
      apply Hno; [reflexivity|]. intros [response [Heq _]]. discriminate. }
  assert (Hshape : (exists props, response = VObj props)
                   \/ (forall props, response <> VObj props)).
  { destruct response; try (right; intros props' Heq; discriminate).
    left. eexists. reflexivity. }
  destruct Hshape as [[props ->] | Hother].
  - destruct (truthy (property (VObj props) (lit "success"))) eqn:Hsuccess.
    + destruct (optional_map (property (VObj props) (lit "functionCalls"))
                  (fun fc => get fc (lit "name"))) as [names|e] eqn:Hmap.
      * assert (Hresult : success_result (VObj props)).
        { split; [eexists; reflexivity|]. split; [exact Hsuccess|].
          exact (optional_map_listed _ Hmap). }
        rewrite (handleSendMessage_continue_success clk st Hresult). eexists.
        split; [reflexivity|]. split.
        { right. unfold function_names. cbn [functionCalls].
          destruct (property (VObj props) (lit "functionCalls")); eexists; reflexivity. }
        split; [left; reflexivity|].
        split; [intros _; exists (VObj props); split; [reflexivity | exact Hresult]
               | reflexivity].
      * assert (Hthrown :
                  exec (handleSendMessage_continue (Normal (VObj props)) clk) st
                  = exec (handleSendMessage_continue (Throw e) clk) st).
        { unfold handleSendMessage_continue, exec, try_catch_finally.
          repeat (first [ rewrite abind_eval | rewrite get_object
                        | rewrite Hsuccess | rewrite Hmap ]; cbv beta iota).
          reflexivity. }
        rewrite Hthrown, handleSendMessage_continue_thrown. eexists.
        split; [reflexivity|]. split; [left; reflexivity|]. split; [right; reflexivity|].
        apply Hno; [reflexivity|]. intros [response [Heq [_ [_ Hlisted]]]].
        injection Heq as <-. pose proof (optional_map_names _ Hlisted) as Hnames.
        rewrite Hmap in Hnames. discriminate.
    + assert (Hread : readable (VObj props)) by (split; discriminate).
      destruct (to_string_or (property (VObj props) (lit "error"))
                  (lit "Unknown error occurred")) as [text|e] eqn:Htext.
      * assert (Hrest :
                  exec (handleSendMessage_continue (Normal (VObj props)) clk) st
                  = setIsTyping false
                      (setMessages (fun prev => prev ++ [failure_message clk text]) st)).
        { unfold handleSendMessage_continue, exec, try_catch_finally.
          repeat (first [ rewrite abind_eval | rewrite abind_update | rewrite get_object
                        | rewrite Hsuccess | rewrite Htext ]; cbv beta iota).
          reflexivity. }
        rewrite Hrest. eexists.
        split; [reflexivity|]. split; [left; reflexivity|]. split; [right; reflexivity|].
        apply Hno; [reflexivity|]. intros [response [Heq [_ [Htruthy _]]]].
        injection Heq as <-. congruence.
      * assert (Hthrown :
                  exec (handleSendMessage_continue (Normal (VObj props)) clk) st
                  = exec (handleSendMessage_continue (Throw e) clk) st).
        { unfold handleSendMessage_continue, exec, try_catch_finally.
          repeat (first [ rewrite abind_eval | rewrite get_object
                        | rewrite Hsuccess | rewrite Htext ]; cbv beta iota).
          reflexivity. }
        rewrite Hthrown, handleSendMessage_continue_thrown. eexists.
        split; [reflexivity|]. split; [left; reflexivity|]. split; [right; reflexivity|].
        apply Hno; [reflexivity|]. intros [response [Heq [_ [Htruthy _]]]].
        injection Heq as <-. congruence.
  - assert (Hnot : ~ exists response', Normal response = Normal response'
                                      /\ success_result response').
    { intros [response' [Heq [[props Hobj] _]]]. injection Heq as <-.
      exact (Hother props Hobj). }
    destruct response as [| |b|n|s|elems|props];
      try (eexists; split; [reflexivity|]; split; [left; reflexivity|];
           split; [right; reflexivity|]; apply Hno; [reflexivity | exact Hnot]).
    exfalso. exact (Hother props eq_refl).
Qed.

(** X12. Every prompt that passes the guard gets exactly one reply, however
    its request comes out: the history grows by the user's message and one
    more, which is the assistant's exactly when the request was answered 2xx
    with a success result, and is an ['error'] message in every other
    case. *)
Theorem every_prompt_answered (clk clk' : clock) (st : State) (r : fetched) :
  ~ whitespace_only (inputMessage st) ->
  isTyping st = false ->
  exists reply,
    messages (complete r clk' (handleSendMessage clk st))
    = messages st ++ [userMessage_of clk st; reply]
    /\ (type reply = AI \/ type reply = ERROR)
    /\ (type reply = AI <-> exists response, json_ok r = Some response
                                              /\ success_result response).
Proof.
  intros Hnonblank Hidle.
  rewrite handleSendMessage_started by assumption.
  unfold complete. cbn [snd fst awaiting resume].
  set (awaited := settle (sendPrompt (inputMessage st) (workingDirectory st) (verboseMode st)) r).
  destruct (handleSendMessage_continue_reply awaited clk'
              (setIsTyping true
                 (setInputMessage []
                    (setMessages (fun prev => prev ++ [userMessage_of clk st])
                       (setError None st)))))
    as [reply [Hmessages [_ [Htype Hiff]]]].
  exists reply. rewrite Hmessages. cbn [messages setIsTyping setMessages setInputMessage setError].
  split; [rewrite <- app_assoc; reflexivity|]. split; [exact Htype|].
  rewrite Hiff. subst awaited.
  split; intros [response [Hsettled Hresult]]; exists response; (split; [|exact Hresult]);
    apply (sendPrompt_settles (inputMessage st) (workingDirectory st) (verboseMode st));
    exact Hsettled.
Qed.

(** ** Properties of every run *)

Lemma started_known (st : State) :
  (forall clk s, snd (submit_form clk st) = Some s -> known s)
  /\ (forall answer s, snd (click_change answer st) = Some s -> known s)
  /\ (forall s, snd (checkHealth st) = Some s -> known s).
Proof.
  split; [|split].
  - intros clk s. unfold submit_form, handleSendMessage.
    destruct (submit_disabled st); [discriminate|].
    destruct (is_empty (trim (inputMessage st)) || isTyping st); [discriminate|].
    intros Heq. injection Heq as <-. apply known_chat.
  - intros answer s. unfold click_change, handleDirectoryChange.
    destruct (change_disabled st); [discriminate|].
    destruct answer as [[|c newPath]|]; try discriminate.
    destruct (isGitUrl (c :: newPath)); intros Heq; injection Heq as <-.
    + apply known_repository.
    + apply known_directory.
  - intros s Heq. injection Heq as <-. apply known_health.
Qed.

Lemma launch_known (sys : System) (started : State * option suspended) :
  Forall known (in_flight sys) ->
  (forall s, snd started = Some s -> known s) ->
  Forall known (in_flight (launch sys started)).
Proof.
  intros Hall Hnew. unfold launch. cbn [in_flight]. apply Forall_app. split; [exact Hall|].
  destruct (snd started) as [s|]; [|constructor].
  constructor; [apply Hnew; reflexivity | constructor].
Qed.

Lemma step_stable (Inv : State -> Prop) (sys : System) (ev : event) :
  stable Inv -> Forall known (in_flight sys) -> Inv (ui sys) ->
  Forall known (in_flight (step sys ev)) /\ Inv (ui (step sys ev)).
Proof.
  intros [Hsubmit [Hchange [Hclear [Hverbose [Hslide [Hinput Hresume]]]]]] Hknown Hinv.
  destruct (started_known (ui sys)) as [Ksubmit [Kchange Khealth]].
  destruct ev as [clk|answer| | | |text| |i r clk]; cbn [step].
  - split; [apply launch_known; [exact Hknown | apply Ksubmit] | apply Hsubmit; exact Hinv].
  - split; [apply launch_known; [exact Hknown | apply Kchange] | apply Hchange; exact Hinv].
  - destruct (banner_shown (ui sys)) eqn:Hshown; cbn [ui in_flight]; split; auto.
  - destruct (verbose_toggle_shown (ui sys)) eqn:Hshown; cbn [ui in_flight]; split; auto.
  - cbn [ui in_flight]. split; auto.
  - destruct (input_disabled (ui sys)) eqn:Hdisabled; cbn [ui in_flight]; split; auto.
  - split; [apply launch_known; [exact Hknown | apply Khealth] | exact Hinv].
  - destruct (nth_error (in_flight sys) i) as [s|] eqn:Hnth; [|split; assumption].
    cbn [ui in_flight]. split; [apply remove_nth_Forall; exact Hknown|].
    apply Hresume; [exact Hinv|].
    rewrite Forall_forall in Hknown. apply Hknown. eapply nth_error_In. exact Hnth.
Qed.

Lemma run_stable (Inv : State -> Prop) (evs : list event) (sys : System) :
  stable Inv -> Forall known (in_flight sys) -> Inv (ui sys) ->
  Forall known (in_flight (run sys evs)) /\ Inv (ui (run sys evs)).
Proof.
  intros Hstable. revert sys. induction evs as [|ev evs IH]; intros sys Hknown Hinv.
  - split; assumption.
  - destruct (@step_stable Inv sys ev Hstable Hknown Hinv) as [Hknown' Hinv'].
    exact (IH (step sys ev) Hknown' Hinv').
Qed.

Lemma mount_known (clk : clock) : Forall known (in_flight (mount clk)).
Proof. constructor; [apply known_health | constructor]. Qed.

(** What holds when the component mounts and is stable holds on every run. *)
Lemma always (Inv : State -> Prop) (clk : clock) (evs : list event) :
  stable Inv -> Inv (initial_state clk) -> Inv (ui (run (mount clk) evs)).
Proof.
  intros Hstable Hinit.
  apply (@run_stable Inv evs (mount clk) Hstable (mount_known clk)). exact Hinit.
Qed.

(** The handlers up to their [await] change [messages], [inputMessage],
    [isTyping] and [error] only. *)
Lemma started_frame (st : State) :
  (forall clk, backendStatus (fst (submit_form clk st)) = backendStatus st
               /\ showCover (fst (submit_form clk st)) = showCover st
               /\ verboseMode (fst (submit_form clk st)) = verboseMode st
               /\ workingDirectory (fst (submit_form clk st)) = workingDirectory st)
  /\ (forall answer, backendStatus (fst (click_change answer st)) = backendStatus st
                     /\ showCover (fst (click_change answer st)) = showCover st
                     /\ verboseMode (fst (click_change answer st)) = verboseMode st
                     /\ workingDirectory (fst (click_change answer st)) = workingDirectory st
                     /\ messages (fst (click_change answer st)) = messages st).
Proof.
  split.
  - intros clk. unfold submit_form, handleSendMessage.
    destruct (submit_disabled st); [repeat split|].
    destruct (is_empty (trim (inputMessage st)) || isTyping st); repeat split.
  - intros answer. unfold click_change, handleDirectoryChange.
    destruct (change_disabled st); [repeat split|].
    destruct answer as [[|c newPath]|]; try (repeat split; fail).
    destruct (isGitUrl (c :: newPath)); repeat split.
Qed.

(** What a suspended handler leaves alone when it resumes. *)
Lemma resume_frame (s : suspended) (awaited : completion value) (clk : clock) (st : State) :
  known s ->
  showCover (resume s awaited clk st) = showCover st
  /\ verboseMode (resume s awaited clk st) = verboseMode st
  /\ inputMessage (resume s awaited clk st) = inputMessage st.
Proof.
  intros [prompt target verbose | newPath | newPath |]; cbn [resume chat_entry
    repository_entry directory_entry health_entry]; unfold exec.
  - destruct (handleSendMessage_continue_frame awaited clk) as [_ [_ [Hi [Hv Hc]]]].
    rewrite Hi, Hv, Hc. repeat split.
  - destruct (handleDirectoryChange_repository_frame newPath awaited clk) as [_ [Hi [Hv Hc]]].
    rewrite Hi, Hv, Hc. repeat split.
  - destruct (handleDirectoryChange_directory_frame newPath awaited clk) as [_ [Hi [Hv Hc]]].
    rewrite Hi, Hv, Hc. repeat split.
  - assert (Hframe : unchanged showCover (checkHealth_continue awaited)
                     /\ unchanged verboseMode (checkHealth_continue awaited)
                     /\ unchanged inputMessage (checkHealth_continue awaited)).
    { unfold checkHealth_continue. repeat split; frame. }
    destruct Hframe as [Hc [Hv Hi]]. rewrite Hi, Hv, Hc. repeat split.
Qed.

(** *** What gets appended *)

Section AppendsOnly.
Context (P : Message -> Prop).

Lemma appends_only_ret {A} (a : A) : appends_only P (ret a).
Proof. intros st. exists []. split; [symmetry; apply app_nil_r | constructor]. Qed.

Lemma appends_only_eval {A} (c : completion A) : appends_only P (eval c).
Proof. intros st. exists []. split; [symmetry; apply app_nil_r | constructor]. Qed.

Lemma appends_only_keep (f : State -> State) :
  (forall st, messages (f st) = messages st) -> appends_only P (update f).
Proof.
  intros Hkeep st. exists []. cbn [update snd].
  split; [rewrite Hkeep; symmetry; apply app_nil_r | constructor].
Qed.

Lemma appends_only_push (m : Message) :
  P m -> appends_only P (update (setMessages (fun prev => prev ++ [m]))).
Proof. intros Hm st. exists [m]. split; [reflexivity | constructor; [exact Hm | constructor]]. Qed.

Lemma appends_only_abind {A C} (c : action A) (k : A -> action C) :
  appends_only P c -> (forall a, appends_only P (k a)) -> appends_only P (abind c k).
Proof.
  intros Hc Hk st. unfold abind. destruct (Hc st) as [added [Heq Hall]].
  destruct (c st) as [[a|e] st']; cbn [snd] in *.
  - destruct (Hk a st') as [added' [Heq' Hall']]. exists (added ++ added').
    split; [rewrite Heq', Heq; symmetry; apply app_assoc | apply Forall_app; split; assumption].
  - exists added. split; assumption.
Qed.

Lemma appends_only_try_catch_finally (body : action unit) (handler : exn -> action unit)
    (final : action unit) :
  appends_only P body -> (forall e, appends_only P (handler e)) -> appends_only P final ->
  appends_only P (try_catch_finally body handler final).
Proof.
  intros Hb Hh Hf st. unfold try_catch_finally.
  destruct (Hb st) as [added1 [Heq1 Hall1]].
  destruct (body st) as [[[]|e] st1]; cbn [snd] in Heq1.
  - destruct (Hf st1) as [added2 [Heq2 Hall2]].
    destruct (final st1) as [[[]|e] st2]; cbn [snd] in *;
      (exists (added1 ++ added2);
       split; [rewrite Heq2, Heq1; symmetry; apply app_assoc
              | apply Forall_app; split; assumption]).
  - destruct (Hh e st1) as [added2 [Heq2 Hall2]].
    destruct (handler e st1) as [caught st2]; cbn [snd] in Heq2.
    destruct (Hf st2) as [added3 [Heq3 Hall3]].
    destruct (final st2) as [[[]|e'] st3]; cbn [snd] in *;
      (exists (added1 ++ added2 ++ added3);
       split; [rewrite Heq3, Heq2, Heq1, <- !app_assoc; reflexivity
              | repeat (apply Forall_app; split); assumption]).
Qed.

End AppendsOnly.

(** Decompose handler code; what is left is [P] of each message pushed. *)
Ltac appended :=
  repeat first
    [ apply appends_only_try_catch_finally
    | apply appends_only_abind; [|intros ?]
    | apply appends_only_eval
    | apply appends_only_ret
    | apply appends_only_keep; intros ?; reflexivity
    | apply appends_only_push
    | match goal with
      | |- appends_only _ (if ?b then _ else _) => destruct b
      | |- forall _, _ => intros ?
      end ].

Lemma validation_appends_plain (newPath : jsstring) (awaited : completion value)
    (clk : clock) :
  appends_only (fun m => functionCalls m = None)
    (handleDirectoryChange_repository newPath awaited clk)
  /\ appends_only (fun m => functionCalls m = None)
       (handleDirectoryChange_directory newPath awaited clk).
Proof.
  split; [unfold handleDirectoryChange_repository | unfold handleDirectoryChange_directory];
    appended; reflexivity.
Qed.

(** X13. On every run of the page, each message of the history either has
    no [functionCalls] or has a list of them: the [.length] and [.map] that
    the rendering applies to a truthy [functionCalls] always find an
    array. *)
Theorem history_renderable (clk : clock) (evs : list event) :
  Forall renderable (messages (ui (run (mount clk) evs))).
Proof.
  apply always.
  2:{ constructor; [left; reflexivity | constructor]. }
  assert (Hplain : forall added, Forall (fun m => functionCalls m = None) added ->
                     Forall renderable added).
  { intros added Hall. eapply Forall_impl; [|exact Hall]. intros m Hm. left. exact Hm. }
  repeat split; try (intros; assumption).
  - intros st clk' Hinv. unfold submit_form, handleSendMessage.
    destruct (submit_disabled st); [exact Hinv|].
    destruct (is_empty (trim (inputMessage st)) || isTyping st); [exact Hinv|].
    cbn [fst messages setIsTyping setInputMessage setMessages setError].
    apply Forall_app. split; [exact Hinv|]. constructor; [left; reflexivity | constructor].
  - intros st answer Hinv. destruct (started_frame st) as [_ Hchange].
    destruct (Hchange answer) as [_ [_ [_ [_ ->]]]]. exact Hinv.
  - intros st s r clk' Hinv Hknown.
    destruct Hknown as [prompt target verbose | newPath | newPath |];
      cbn [resume awaiting chat_entry repository_entry directory_entry health_entry].
    + destruct (handleSendMessage_continue_reply
                  (settle (sendPrompt prompt target verbose) r) clk' st)
        as [reply [-> [Hreply _]]].
      apply Forall_app. split; [exact Hinv | constructor; [exact Hreply | constructor]].
    + destruct (validation_appends_plain newPath (settle (validateRepository newPath) r) clk')
        as [Hrepo _].
      destruct (Hrepo st) as [added [Heq Hall]]. unfold exec. rewrite Heq.
      apply Forall_app. split; [exact Hinv | apply Hplain; exact Hall].
    + destruct (validation_appends_plain newPath (settle (validateDirectory newPath) r) clk')
        as [_ Hdir].
      destruct (Hdir st) as [added [Heq Hall]]. unfold exec. rewrite Heq.
      apply Forall_app. split; [exact Hinv | apply Hplain; exact Hall].
    + rewrite checkHealth_resumed. destruct (health_answer r); exact Hinv.
Qed.

(** X14. On every run of the page, [backendStatus] is either the initial
    [{healthy: false, checking: true}] or [{healthy: b, checking: false}]
    for a boolean [b]: once a health check has been answered, [checking]
    does not come back, and [healthy] is never anything but a boolean. *)
Theorem backend_status_settled (clk : clock) (evs : list event) :
  status_settled (backendStatus (ui (run (mount clk) evs))).
Proof.
  apply (@always (fun st => status_settled (backendStatus st))); [|left; reflexivity].
  repeat split; try (intros; assumption).
  - intros st clk' Hinv. destruct (started_frame st) as [Hsubmit _].
    destruct (Hsubmit clk') as [-> _]. exact Hinv.
  - intros st answer Hinv. destruct (started_frame st) as [_ Hchange].
    destruct (Hchange answer) as [-> _]. exact Hinv.
  - intros st s r clk' Hinv Hknown.
    destruct Hknown as [prompt target verbose | newPath | newPath |];
      cbn [resume awaiting chat_entry repository_entry directory_entry health_entry].
    + destruct (handleSendMessage_continue_frame
                  (settle (sendPrompt prompt target verbose) r) clk') as [_ [Hstatus _]].
      unfold exec. rewrite Hstatus. exact Hinv.
    + destruct (handleDirectoryChange_repository_frame newPath
                  (settle (validateRepository newPath) r) clk') as [Hstatus _].
      unfold exec. rewrite Hstatus. exact Hinv.
    + destruct (handleDirectoryChange_directory_frame newPath
                  (settle (validateDirectory newPath) r) clk') as [Hstatus _].
      unfold exec. rewrite Hstatus. exact Hinv.
    + rewrite checkHealth_resumed. right. exists (health_answer r).
      destruct (health_answer r); reflexivity.
Qed.

Lemma cover_stable :
  stable (fun st => showCover st = false)
  /\ stable (fun st => showCover st = true -> verboseMode st = false).
Proof.
  split.
  - split; [|split; [|split; [|split; [|split; [|split]]]]].
    + intros st clk Hinv. destruct (started_frame st) as [Hsubmit _].
      destruct (Hsubmit clk) as [_ [-> _]]. exact Hinv.
    + intros st answer Hinv. destruct (started_frame st) as [_ Hchange].
      destruct (Hchange answer) as [_ [-> _]]. exact Hinv.
    + intros st Hinv _. exact Hinv.
    + intros st Hinv _. exact Hinv.
    + intros st _. reflexivity.
    + intros st text Hinv _. exact Hinv.
    + intros st s r clk Hinv Hknown.
      destruct (resume_frame (settle (awaiting s) r) clk st Hknown) as [-> _]. exact Hinv.
  - split; [|split; [|split; [|split; [|split; [|split]]]]].
    + intros st clk Hinv. destruct (started_frame st) as [Hsubmit _].
      destruct (Hsubmit clk) as [_ [-> [-> _]]]. exact Hinv.
    + intros st answer Hinv. destruct (started_frame st) as [_ Hchange].
      destruct (Hchange answer) as [_ [-> [-> _]]]. exact Hinv.
    + intros st Hinv _. exact Hinv.
    + intros st _ Hshown Hcover. unfold verbose_toggle_shown in Hshown.
      cbn [onClick_verbose showCover setVerboseMode] in Hcover.
      rewrite Hcover in Hshown. discriminate.
    + intros st _ Hcover. discriminate.
    + intros st text Hinv _. exact Hinv.
    + intros st s r clk Hinv Hknown.
      destruct (resume_frame (settle (awaiting s) r) clk st Hknown) as [-> [-> _]].
      exact Hinv.
Qed.

(** X15. The cover page, once slid up, does not come back on any later
    event; and since the verbose toggle is rendered only without the cover,
    verbose mode is off as long as the cover shows. *)
Theorem cover_and_verbose (clk : clock) (evs more : list event) :
  (showCover (ui (run (mount clk) evs)) = false ->
   showCover (ui (run (mount clk) (evs ++ more))) = false)
  /\ (showCover (ui (run (mount clk) evs)) = true ->
      verboseMode (ui (run (mount clk) evs)) = false).
Proof.
  destruct cover_stable as [Hgone Hverbose]. split.
  - intros Hhidden. unfold run. rewrite fold_left_app. fold (run (mount clk) evs).
    destruct (@run_stable (fun st => True) evs (mount clk)) as [Hknown _];
      [repeat split | apply mount_known | exact I |].
    apply (@run_stable _ more (run (mount clk) evs) Hgone Hknown Hhidden).
  - apply (always clk evs Hverbose). reflexivity.
Qed.

(** X16. The seeded greeting stays the first message of the history on
    every run: nothing is ever put before it, and it is never dropped. *)
Theorem greeting_stays_first (clk : clock) (evs : list event) :
  exists rest,
    messages (ui (run (mount clk) evs))
    = plain_message 1 AI greeting (toLocaleTimeString clk) :: rest.
Proof.
  destruct (run_history evs (mount_well_formed clk)) as [_ [added Heq]].
  exists added. rewrite Heq. reflexivity.
Qed.

(** ** The page *)

(** X17. A submission of the form sends a request exactly when the input is
    not blank, no request of the user is underway and the backend was last
    seen healthy.  The request then goes to [/chat] with the text as typed
    (not trimmed), the current target and the verbose flag; the input is
    emptied, the banner cleared and the pending flag set.  Otherwise nothing
    at all happens. *)
Theorem submit_sends (sys : System) (clk : clock) :
  (submit_disabled (ui sys) = false
   <-> ~ whitespace_only (inputMessage (ui sys))
       /\ isTyping (ui sys) = false
       /\ truthy (healthy (backendStatus (ui sys))) = true)
  /\ (submit_disabled (ui sys) = false ->
      pending_requests (step sys (Submit clk)) = pending_requests sys ++ [chat_request (ui sys)]
      /\ inputMessage (ui (step sys (Submit clk))) = []
      /\ error (ui (step sys (Submit clk))) = None
      /\ isTyping (ui (step sys (Submit clk))) = true)
  /\ (submit_disabled (ui sys) = true -> step sys (Submit clk) = sys).
Proof.
  split; [|split].
  - unfold submit_disabled. rewrite !orb_false_iff, negb_false_iff. split.
    + intros [[Hblank Hidle] Hhealthy]. split; [|split; assumption].
      intros Hws. apply is_empty_trim_iff in Hws. congruence.
    + intros [Hnonblank [Hidle Hhealthy]].
      split; [split; [apply is_empty_trim_false; exact Hnonblank | exact Hidle]
             | exact Hhealthy].
  - intros Henabled. cbn [step]. unfold submit_form. rewrite Henabled.
    unfold submit_disabled in Henabled. rewrite !orb_false_iff in Henabled.
    destruct Henabled as [[Hblank Hidle] _].
    unfold handleSendMessage. rewrite Hblank, Hidle. cbn [orb].
    unfold pending_requests, launch. cbn [in_flight ui fst snd].
    rewrite map_app. repeat split.
  - intros Hdisabled. cbn [step]. unfold submit_form. rewrite Hdisabled.
    apply launch_nothing.
Qed.

(** X18. After a health check, prompts can be submitted only if it found the
    backend healthy: when the check fails, the text field and the submit
    button are disabled, whatever the input; when it succeeds, only a blank
    input or a request underway disables them. *)
Theorem health_gates_input (r : fetched) (clk : clock) (st : State) :
  submit_disabled (complete r clk (checkHealth st))
  = is_empty (trim (inputMessage st)) || isTyping st || negb (health_answer r)
  /\ input_disabled (complete r clk (checkHealth st)) = negb (health_answer r) || isTyping st.
Proof.
  unfold complete. cbn [checkHealth snd fst awaiting resume].
  rewrite checkHealth_resumed. destruct (health_answer r); split; reflexivity.
Qed.

(** X19. The header's Git label is narrower than the routing of
    [handleDirectoryChange]: a target shown with the Git icon and label is
    one that would be validated as a repository, but a target can be
    validated as a repository (any [https://] URL) and still be shown as a
    working directory. *)
Theorem label_narrower_than_routing :
  (forall st, shows_git_label st = true -> isGitUrl (workingDirectory st) = true)
  /\ exists st, isGitUrl (workingDirectory st) = true /\ shows_git_label st = false.
Proof.
  split.
  - intros st. unfold shows_git_label, isGitUrl. rewrite !orb_true_iff. tauto.
  - exists (setWorkingDirectory (lit "https://example.com/repo")
              (initial_state {| Date_now := 0; toLocaleTimeString := [] |})).
    split; reflexivity.
Qed.

(** X20. A validation answered with the JSON body [null] ends in the
    [catch] of [handleDirectoryChange]: the banner reads "Failed to
    validate: " followed by the engine's message for reading [valid] of
    [null], nothing is appended to the history, and the target stays. *)
Theorem validation_null_body (newPath : jsstring) (r : fetched) (clk : clock) (st : State) :
  newPath <> [] ->
  parsed r = Some VNull ->
  complete r clk (handleDirectoryChange (Some newPath) st)
  = setIsTyping false
      (setError
         (Some (lit "Failed to validate: " ++ type_error_message (ReadOfNull (lit "valid"))))
         (setIsTyping true st)).
Proof.
  intros Hnonempty Hparsed.
  rewrite handleDirectoryChange_started by assumption.
  destruct (parsed_settle newPath r Hparsed) as [Hdir Hrepo].
  unfold complete. destruct (isGitUrl newPath); cbn [snd fst awaiting resume];
    [rewrite Hrepo | rewrite Hdir]; reflexivity.
Qed.

(** X22. A double submission sends at most one request: whatever the first
    submission did, a second one right after it changes nothing. *)
Theorem double_submit (sys : System) (clk clk' : clock) :
  step (step sys (Submit clk)) (Submit clk') = step sys (Submit clk).
Proof.
  assert (Hnoop : forall sys', submit_disabled (ui sys') = true ->
                    step sys' (Submit clk') = sys').
  { intros sys' Hdisabled. cbn [step]. unfold submit_form. rewrite Hdisabled.
    apply launch_nothing. }
  destruct (submit_disabled (ui sys)) eqn:Hdisabled.
  - assert (Hfirst : step sys (Submit clk) = sys).
    { cbn [step]. unfold submit_form. rewrite Hdisabled. apply launch_nothing. }
    rewrite Hfirst. apply Hnoop. exact Hdisabled.
  - apply Hnoop. cbn [step]. unfold submit_form. rewrite Hdisabled.
    unfold submit_disabled in Hdisabled. rewrite !orb_false_iff in Hdisabled.
    destruct Hdisabled as [[Hblank Hidle] _].
    unfold handleSendMessage. rewrite Hblank, Hidle. cbn [orb launch ui fst].
    unfold submit_disabled. cbn [isTyping setIsTyping]. rewrite orb_true_r. reflexivity.
Qed.

End Coverage.
End Coverage.

(* ===================================================================== *)
(** * The further properties on concrete inputs *)
(* ===================================================================== *)

Module CoverageRuns.
Import App Samples Coverage.

#[local] Existing Instance integer_host.

Ltac not_blank :=
  let Hblank := fresh "Hblank" in
  intros Hblank; apply is_empty_trim_iff in Hblank; vm_compute in Hblank; discriminate.

Ltac nonempty := vm_compute; discriminate.

Ltac is_readable := split; discriminate.

(** A 200 answer comes out of [sendPrompt] as its body. *)
Lemma sendPrompt_returns_iff_witness :
  json_ok (answered chat_success) = Some chat_success
  /\ settle (sendPrompt (lit "list the files") (lit "/tmp") false) (answered chat_success)
     = Normal chat_success.
Proof.
  split; [reflexivity|].
  apply (proj1 (@sendPrompt_returns_iff integer_host (lit "list the files") (lit "/tmp") false
                  (answered chat_success) chat_success)).
  reflexivity.
Defined.

(** A 500 answer [{"error": "boom"}] to a prompt. *)
Lemma server_error_surfaces_witness :
  (~ whitespace_only (inputMessage typed))
  /\ isTyping typed = false
  /\ ok error_500 = false
  /\ messages (complete (Normal error_500) later (handleSendMessage noon typed))
     = messages typed ++ [userMessage_of noon typed; failed_request_message later (lit "boom")]
  /\ error (complete (Normal error_500) later (handleSendMessage noon typed))
     = Some (lit "boom")
  /\ isTyping (complete (Normal error_500) later (handleSendMessage noon typed)) = false.
Proof.
  assert (Hnonblank : ~ whitespace_only (inputMessage typed)) by not_blank.
  split; [exact Hnonblank|]. split; [reflexivity|]. split; [reflexivity|].
  apply (@server_error_surfaces integer_host noon later typed error_500
           (VObj [(lit "error", VStr (lit "boom"))]) (lit "boom"));
    first [exact Hnonblank | reflexivity | is_readable].
Defined.

(** A 503 answer [{}] to a prompt. *)
Lemma status_error_surfaces_witness :
  (~ whitespace_only (inputMessage typed))
  /\ ok error_503 = false
  /\ messages (complete (Normal error_503) later (handleSendMessage noon typed))
     = messages typed
       ++ [userMessage_of noon typed; failed_request_message later (status_message error_503)]
  /\ error (complete (Normal error_503) later (handleSendMessage noon typed))
     = Some (lit "HTTP error! status: " ++ of_N (status error_503))
  /\ isTyping (complete (Normal error_503) later (handleSendMessage noon typed)) = false.
Proof.
  assert (Hnonblank : ~ whitespace_only (inputMessage typed)) by not_blank.
  split; [exact Hnonblank|]. split; [reflexivity|].
  apply (@status_error_surfaces integer_host noon later typed error_503 (VObj []));
    first [exact Hnonblank | reflexivity | is_readable].
Defined.

Example status_error_text :
  error (complete (Normal error_503) later (handleSendMessage noon typed))
  = Some (lit "HTTP error! status: 503").
Proof. reflexivity. Qed.

(** A local path rejected without a reason. *)
Lemma validation_rejected_witness :
  lit "/nowhere" <> []
  /\ parsed (answered rejected_bare) = Some rejected_bare
  /\ to_string (property rejected_bare (lit "error")) = Normal (lit "undefined")
  /\ workingDirectory (complete (answered rejected_bare) later
                         (handleDirectoryChange (Some (lit "/nowhere")) fresh))
     = workingDirectory fresh
  /\ error (complete (answered rejected_bare) later
              (handleDirectoryChange (Some (lit "/nowhere")) fresh))
     = Some (validation_failed_banner (lit "/nowhere") (lit "undefined"))
  /\ messages (complete (answered rejected_bare) later
                 (handleDirectoryChange (Some (lit "/nowhere")) fresh))
     = messages fresh ++ [validation_failed_message (lit "/nowhere") later (lit "undefined")]
  /\ isTyping (complete (answered rejected_bare) later
                 (handleDirectoryChange (Some (lit "/nowhere")) fresh)) = false.
Proof.
  assert (Hnonempty : lit "/nowhere" <> []) by nonempty.
  split; [exact Hnonempty|]. split; [reflexivity|]. split; [reflexivity|].
  apply (@validation_rejected integer_host (lit "/nowhere") (answered rejected_bare)
           rejected_bare (lit "undefined") later fresh);
    first [exact Hnonempty | reflexivity | is_readable].
Defined.

Example validation_rejected_text :
  error (complete (answered rejected_bare) later
           (handleDirectoryChange (Some (lit "/nowhere")) fresh))
  = Some (lit "Invalid directory: undefined").
Proof. reflexivity. Qed.

(** The network is down while a repository URL is validated. *)
Lemma validation_transport_failure_witness :
  lit "https://github.com/foo/bar" <> []
  /\ thrown_by network_down = Some failed_to_fetch
  /\ workingDirectory (complete network_down later
                         (handleDirectoryChange (Some (lit "https://github.com/foo/bar")) fresh))
     = workingDirectory fresh
  /\ error (complete network_down later
              (handleDirectoryChange (Some (lit "https://github.com/foo/bar")) fresh))
     = Some (validation_failed_banner (lit "https://github.com/foo/bar")
               (message failed_to_fetch))
  /\ messages (complete network_down later
                 (handleDirectoryChange (Some (lit "https://github.com/foo/bar")) fresh))
     = messages fresh
       ++ [validation_failed_message (lit "https://github.com/foo/bar") later
             (message failed_to_fetch)]
  /\ isTyping (complete network_down later
                 (handleDirectoryChange (Some (lit "https://github.com/foo/bar")) fresh))
     = false.
Proof.
  assert (Hnonempty : lit "https://github.com/foo/bar" <> []) by nonempty.
  split; [exact Hnonempty|]. split; [reflexivity|].
  apply (@validation_transport_failure integer_host (lit "https://github.com/foo/bar")
           network_down failed_to_fetch later fresh);
    first [exact Hnonempty | reflexivity].
Defined.

Example validation_transport_failure_text :
  error (complete network_down later
           (handleDirectoryChange (Some (lit "https://github.com/foo/bar")) fresh))
  = Some (lit "Repository validation failed: Failed to fetch").
Proof. reflexivity. Qed.

(** A GitHub URL accepted with a branch and a count of code files only. *)
Lemma repository_confirmed_witness :
  isGitUrl (lit "https://github.com/foo/bar") = true
  /\ parsed (answered repository_accepted) = Some repository_accepted
  /\ complete (answered repository_accepted) later
       (handleDirectoryChange (Some (lit "https://github.com/foo/bar")) fresh)
     = confirmed (lit "https://github.com/foo/bar")
         (repository_connected_text (lit "https://github.com/foo/bar")
            (lit "dev") (lit "7") (lit "0") (lit "0") (lit "Unknown"))
         later (setIsTyping true fresh).
Proof.
  split; [reflexivity|]. split; [reflexivity|].
  apply (@repository_confirmed integer_host (lit "https://github.com/foo/bar")
           (answered repository_accepted) repository_accepted);
    first [ nonempty | reflexivity | is_readable
          | left; split; reflexivity | right; split; reflexivity ].
Defined.

(** A local path accepted with its counts. *)
Lemma directory_confirmed_witness :
  isGitUrl (lit "/home/user/project") = false
  /\ parsed (answered directory_accepted) = Some directory_accepted
  /\ complete (answered directory_accepted) later
       (handleDirectoryChange (Some (lit "/home/user/project")) fresh)
     = confirmed (lit "/home/user/project")
         (directory_changed_text (lit "/home/user/project") (lit "12") (lit "3"))
         later (setIsTyping true fresh).
Proof.
  split; [reflexivity|]. split; [reflexivity|].
  apply (@directory_confirmed integer_host (lit "/home/user/project")
           (answered directory_accepted) directory_accepted);
    first [nonempty | reflexivity | is_readable].
Defined.

(** A local path that is a Git checkout. *)
Lemma local_repository_confirmed_witness :
  isGitUrl (lit "/home/user/project") = false
  /\ parsed (answered checkout_accepted) = Some checkout_accepted
  /\ complete (answered checkout_accepted) later
       (handleDirectoryChange (Some (lit "/home/user/project")) fresh)
     = confirmed (lit "/home/user/project")
         (local_repository_text (lit "/home/user/project") (lit "7") (lit "0"))
         later (setIsTyping true fresh).
Proof.
  split; [reflexivity|]. split; [reflexivity|].
  apply (@local_repository_confirmed integer_host (lit "/home/user/project")
           (answered checkout_accepted) checkout_accepted);
    first [ nonempty | reflexivity | is_readable
          | left; split; reflexivity | right; split; reflexivity ].
Defined.

(** A prompt answered 200 with [{"success": false}]. *)
Lemma value_level_failure_reply_witness :
  (~ whitespace_only (inputMessage typed))
  /\ json_ok (answered failure_bare) = Some failure_bare
  /\ messages (complete (answered failure_bare) later (handleSendMessage noon typed))
     = messages typed
       ++ [userMessage_of noon typed; failure_message later (lit "Unknown error occurred")]
  /\ error (complete (answered failure_bare) later (handleSendMessage noon typed)) = None
  /\ isTyping (complete (answered failure_bare) later (handleSendMessage noon typed)) = false.
Proof.
  assert (Hnonblank : ~ whitespace_only (inputMessage typed)) by not_blank.
  split; [exact Hnonblank|]. split; [reflexivity|].
  apply (@value_level_failure_reply integer_host noon later typed (answered failure_bare)
           failure_bare (lit "Unknown error occurred"));
    first [exact Hnonblank | reflexivity | is_readable | right; split; reflexivity].
Defined.

(** A prompt whose request is rejected. *)
Lemma every_prompt_answered_witness :
  (~ whitespace_only (inputMessage typed))
  /\ isTyping typed = false
  /\ exists reply,
       messages (complete network_down later (handleSendMessage noon typed))
       = messages typed ++ [userMessage_of noon typed; reply]
       /\ (type reply = AI \/ type reply = ERROR)
       /\ (type reply = AI <-> exists response, json_ok network_down = Some response
                                                 /\ success_result response).
Proof.
  assert (Hnonblank : ~ whitespace_only (inputMessage typed)) by not_blank.
  split; [exact Hnonblank|]. split; [reflexivity|].
  apply (@every_prompt_answered integer_host noon later typed network_down);
    first [exact Hnonblank | reflexivity].
Defined.

(** The cover slid up stays up while the user toggles and types; before
    that, the toggle does nothing. *)
Lemma cover_and_verbose_witness :
  showCover (ui (run (mount noon) [SlideUp])) = false
  /\ showCover (ui (run (mount noon) ([SlideUp] ++ [ClickVerbose; Tick; Submit later])))
     = false
  /\ showCover (ui (run (mount noon) [ClickVerbose])) = true
  /\ verboseMode (ui (run (mount noon) [ClickVerbose])) = false.
Proof.
  split; [reflexivity|]. split.
  - apply (proj1 (@cover_and_verbose integer_host noon [SlideUp]
                    [ClickVerbose; Tick; Submit later])).
    reflexivity.
  - split; [reflexivity|].
    apply (proj2 (@cover_and_verbose integer_host noon [ClickVerbose] [])).
    reflexivity.
Defined.

(** Submitting from [ready]. *)
Lemma submit_sends_witness :
  submit_disabled (ui ready) = false
  /\ pending_requests (step ready (Submit later))
     = pending_requests ready ++ [chat_request (ui ready)]
  /\ inputMessage (ui (step ready (Submit later))) = []
  /\ error (ui (step ready (Submit later))) = None
  /\ isTyping (ui (step ready (Submit later))) = true.
Proof.
  split; [reflexivity|].
  apply (proj1 (proj2 (@submit_sends integer_host ready later))).
  reflexivity.
Defined.

Example submit_sends_untrimmed :
  let padded := setInputMessage (lit "  hi ") (ui ready) in
  dispatched (submit_form later padded) = Some (chat_request padded)
  /\ body (chat_request padded)
     = Some (VObj [(lit "prompt", VStr (lit "  hi "));
                   (lit "working_directory", VStr (lit "https://github.com/microsoft/calculator"));
                   (lit "verbose", VBool false)]).
Proof. split; reflexivity. Qed.

(** The initial target, a GitHub URL, shows the Git label. *)
Lemma label_narrower_than_routing_witness :
  shows_git_label fresh = true /\ isGitUrl (workingDirectory fresh) = true.
Proof.
  split; [reflexivity|].
  apply (proj1 (@label_narrower_than_routing integer_host) fresh). reflexivity.
Defined.

(** A validation answered 200 with the body [null]. *)
Lemma validation_null_body_witness :
  lit "/home/user/project" <> []
  /\ parsed (answered VNull) = Some VNull
  /\ complete (answered VNull) later (handleDirectoryChange (Some (lit "/home/user/project")) fresh)
     = setIsTyping false
         (setError
            (Some (lit "Failed to validate: " ++ type_error_message (ReadOfNull (lit "valid"))))
            (setIsTyping true fresh)).
Proof.
  assert (Hnonempty : lit "/home/user/project" <> []) by nonempty.
  split; [exact Hnonempty|]. split; [reflexivity|].
  apply (@validation_null_body integer_host (lit "/home/user/project") (answered VNull) later
           fresh);
    first [exact Hnonempty | reflexivity].
Defined.

End CoverageRuns.
